(** * StockUP: the intraday analysis pipeline of [streamlit_app.py]

    A shallow embedding of the analytic functions of the application
    ([classify_trend], [get_market_behavior], [calculate_moving_averages],
    [analyze_trends], [calculate_factor_metrics] and the analysis branch of
    [main]) together with the pandas operations they call, and the properties
    of the specification stated over them. *)

From Stdlib Require Import ZArith Lia QArith SpecFloat.
From stdpp Require Import base option list strings gmap.

Local Open Scope Z_scope.

(** ** Numbers

    The columns hold [numpy.float64] values: IEEE 754 binary64, with 53 bits
    of precision, round to nearest even, overflow to an infinity, gradual
    underflow, two zeros and NaN.  The operations are those of the
    specification of binary64 arithmetic of the standard library; numpy
    raises nothing on a division by zero (the warning it issues is silenced
    by the script). *)

Abbreviation float := spec_float.

Module Float.

Definition prec : Z := 53.
Definition emax : Z := 1024.

Definition nan : float := S754_nan.
Definition zero : float := S754_zero false.

(** The conversion of an integer, rounded when it has more than 53 bits. *)
Definition of_Z (n : Z) : float := binary_normalize prec emax n 0 false.

Definition one : float := Eval vm_compute in of_Z 1.
Definition hundred : float := Eval vm_compute in of_Z 100.

Definition neg (x : float) : float := SFopp x.
Definition add (x y : float) : float := SFadd prec emax x y.
Definition sub (x y : float) : float := SFsub prec emax x y.
Definition mul (x y : float) : float := SFmul prec emax x y.
Definition div (x y : float) : float := SFdiv prec emax x y.

(** Comparisons: every comparison with a NaN is false, and the two zeros
    are equal. *)
Definition eqb (x y : float) : bool := SFeqb x y.
Definition ltb (x y : float) : bool := SFltb x y.
Definition leb (x y : float) : bool := SFleb x y.
Definition gtb (x y : float) : bool := ltb y x.

Definition isnan (x : float) : bool :=
  match x with S754_nan => true | _ => false end.

Definition isinf (x : float) : bool :=
  match x with S754_infinity _ => true | _ => false end.

Definition isfinite (x : float) : bool :=
  match x with S754_zero _ | S754_finite _ _ _ => true | _ => false end.

Definition iszero (x : float) : bool :=
  match x with S754_zero _ => true | _ => false end.

Definition signbit (x : float) : bool :=
  match x with
  | S754_zero s | S754_infinity s | S754_finite s _ _ => s
  | S754_nan => false
  end.

(** A mantissa and an exponent that binary64 can hold. *)
Definition valid (x : float) : bool := valid_binary prec emax x.

(** The integer part of a finite value, [0] for the others. *)
Definition trunc (x : float) : Z :=
  match x with
  | S754_finite s m e =>
      let n := match e with
               | Zneg p => Z.shiftr (Zpos m) (Zpos p)
               | _ => Z.shiftl (Zpos m) e
               end in
      if s then - n else n
  | _ => 0
  end.

(** [numpy.rint], by which a column is rounded to no decimals: the nearest
    whole number, and the even one of the two when they are as near. *)
Definition rint (x : float) : float :=
  match x with
  | S754_finite s m (Zneg p) =>
      let mrs :=
        SpecFloat.iter_pos shr_1 p (Build_shr_record (Zpos m) false false) in
      match round_nearest_even (shr_m mrs) (loc_of_shr_record mrs) with
      | Zpos n =>
          let '(mz, ez) :=
            shl_align n 0 (fexp prec emax (Zpos (digits2_pos n))) in
          S754_finite s mz ez
      | _ => S754_zero s
      end
  | _ => x
  end.

(** The number a finite value stands for. *)
Definition to_Q (x : float) : option Q :=
  match x with
  | S754_zero _ => Some 0%Q
  | S754_finite s m e =>
      Some (inject_Z (if s then Zneg m else Zpos m) * Qpower 2 e)%Q
  | _ => None
  end.

End Float.

Global Arguments Float.of_Z : simpl never.
Global Arguments Float.add : simpl never.
Global Arguments Float.sub : simpl never.
Global Arguments Float.mul : simpl never.
Global Arguments Float.div : simpl never.

(** A finite binary64 value. *)
Record double : Type := Double {
  value :> float;
  value_finite : Is_true (Float.isfinite value && Float.valid value)
}.

(** ** Exceptions

    The functions of the script raise nothing themselves; the exceptions are
    those of the pandas calls.  [IntCastingNaNError] is a [ValueError] of
    pandas, kept apart here. *)

Inductive exn : Type :=
| ValueError
| IndexError
| IntCastingNaNError.

Inductive result (A : Type) : Type :=
| Ok (a : A)
| Raise (e : exn).
Arguments Ok {A} a.
Arguments Raise {A} e.

Global Instance result_ret : MRet result := fun A a => Ok a.
Global Instance result_bind : MBind result := fun A B f m =>
  match m with
  | Ok a => f a
  | Raise e => Raise e
  end.

(** ** The sum of numpy

    [numpy.add.reduce] over an array of floats adds the values pairwise:
    fewer than eight values one after the other, up to 128 values in eight
    lanes that are then added two by two, and a longer array in two halves.
    The sum starts from the negative zero, which no value changes. *)

Module Numpy.

(** The lanes [r] after [blocks] blocks of eight values of [a], and the
    values that are left. *)
Fixpoint add_blocks (blocks : nat) (r a : list float)
  : list float * list float :=
  match blocks with
  | O => (r, a)
  | S blocks => add_blocks blocks (zip_with Float.add r (take 8 a)) (drop 8 a)
  end.

Definition unrolled_sum (a : list float) : float :=
  let '(r, rest) := add_blocks (length a / 8 - 1) (take 8 a) (drop 8 a) in
  match r with
  | [r0; r1; r2; r3; r4; r5; r6; r7] =>
      fold_left Float.add rest
        (Float.add (Float.add (Float.add r0 r1) (Float.add r2 r3))
                   (Float.add (Float.add r4 r5) (Float.add r6 r7)))
  | _ => Float.nan
  end.

(** [depth] bounds the number of halvings; the length of the array is
    more than enough. *)
Fixpoint pairwise_sum (depth : nat) (a : list float) : float :=
  let n := length a in
  if (n <? 8)%nat then fold_left Float.add a (Float.neg Float.zero)
  else if (n <=? 128)%nat then unrolled_sum a
  else
    match depth with
    | O => Float.nan
    | S depth =>
        let n2 := (n / 2 - (n / 2) mod 8)%nat in
        Float.add (pairwise_sum depth (take n2 a))
                  (pairwise_sum depth (drop n2 a))
    end.

Definition sum (a : list float) : float := pairwise_sum (length a) a.

End Numpy.

(** ** The pandas operations used by the script

    A [Series] is the list of its values in index order, and a frame the
    list of its rows. *)

Module Pandas.

(** *** The rolling mean

    [roll_mean] of pandas keeps a running sum of the window with a
    compensation term (Kahan summation): the values that enter the window
    are added, those that leave it are removed.  It also counts the
    observations, the negative ones, and the equal values met in a row. *)

Record mean_state : Type := MeanState {
  nobs : Z;
  sum_x : float;
  neg_ct : Z;
  compensation_add : float;
  compensation_remove : float;
  num_consecutive_same_value : Z;
  prev_value : float
}.

(** The state at the start of a window whose first value is [first]. *)
Definition setup (first : float) : mean_state :=
  MeanState 0 Float.zero 0 Float.zero Float.zero 0 first.

Definition add_mean (st : mean_state) (val : float) : mean_state :=
  if Float.eqb val val then
    let y := Float.sub val (compensation_add st) in
    let t := Float.add (sum_x st) y in
    MeanState
      (nobs st + 1)
      t
      (if Float.signbit val then neg_ct st + 1 else neg_ct st)
      (Float.sub (Float.sub t (sum_x st)) y)
      (compensation_remove st)
      (if Float.eqb val (prev_value st)
       then num_consecutive_same_value st + 1 else 1)
      val
  else st.

Definition remove_mean (st : mean_state) (val : float) : mean_state :=
  if Float.eqb val val then
    let y := Float.sub (Float.neg val) (compensation_remove st) in
    let t := Float.add (sum_x st) y in
    MeanState
      (nobs st - 1)
      t
      (if Float.signbit val then neg_ct st - 1 else neg_ct st)
      (compensation_add st)
      (Float.sub (Float.sub t (sum_x st)) y)
      (num_consecutive_same_value st)
      (prev_value st)
  else st.

Definition calc_mean (minp : Z) (st : mean_state) : float :=
  if (minp <=? nobs st) && (0 <? nobs st) then
    let result := Float.div (sum_x st) (Float.of_Z (nobs st)) in
    if num_consecutive_same_value st >=? nobs st then prev_value st
    else if (neg_ct st =? 0) && Float.ltb result Float.zero then Float.zero
    else if (neg_ct st =? nobs st) && Float.gtb result Float.zero
         then Float.zero
    else result
  else Float.nan.

(** The bounds of the window that ends at position [i], for a window of
    [w] values: [values[window_start w i : window_end i]]. *)
Definition window_start (w i : nat) : nat := (i + 1 - w)%nat.
Definition window_end (i : nat) : nat := (i + 1)%nat.

(** [values[a:b]] *)
Definition slice (values : list float) (a b : nat) : list float :=
  take (b - a) (drop a values).

(** One turn of the loop of [roll_mean]: the state of window [i] from the
    state of window [i - 1].  The sum starts afresh at the first window and
    whenever the window does not overlap the one before. *)
Definition roll_step (values : list float) (w : nat) (st : mean_state)
    (i : nat) : mean_state :=
  let s := window_start w i in
  let e := window_end i in
  if bool_decide (i = 0%nat \/ (window_end (i - 1) <= s)%nat) then
    fold_left add_mean (slice values s e)
      (setup (default Float.nan (values !! s)))
  else
    let st :=
      fold_left remove_mean (slice values (window_start w (i - 1)) s) st in
    fold_left add_mean (slice values (window_end (i - 1)) e) st.

Fixpoint roll_mean_loop (values : list float) (w : nat) (minp : Z)
    (st : mean_state) (positions : list nat) : list float :=
  match positions with
  | [] => []
  | i :: positions =>
      let st := roll_step values w st i in
      calc_mean minp st :: roll_mean_loop values w minp st positions
  end.

Definition roll_mean (values : list float) (w : nat) (minp : Z)
  : list float :=
  roll_mean_loop values w minp (setup Float.nan) (seq 0 (length values)).

(** The values handed to [roll_mean]: an infinity counts as missing. *)
Definition prep_values (xs : list float) : list float :=
  (fun x => if Float.isinf x then Float.nan else x) <$> xs.

(** [series.rolling(window=window, min_periods=1).mean()]; pandas refuses a
    window smaller than [min_periods]. *)
Definition rolling_mean (window : Z) (xs : list float) : result (list float) :=
  if window <? 1 then Raise ValueError
  else Ok (roll_mean (prep_values xs) (Z.to_nat window) 1).

(** [series.shift(1)] *)
Definition shift (xs : list float) : list float :=
  take (length xs) (Float.nan :: xs).

(** [series.pct_change()]: [series / series.shift(1) - 1] *)
Definition pct_change (xs : list float) : list float :=
  zip_with (fun x prev => Float.sub (Float.div x prev) Float.one) xs (shift xs).

(** [series.fillna(v)] *)
Definition fillna (v : float) (xs : list float) : list float :=
  (fun x => if Float.isnan x then v else x) <$> xs.

(** [series.round(0)] *)
Definition round_0 (xs : list float) : list float := Float.rint <$> xs.

(** [series.astype(int)] on a column of floats: pandas refuses a column
    that holds a NaN or an infinity, and truncates the values of any other
    column. *)
Definition astype_int (xs : list float) : result (list Z) :=
  if forallb Float.isfinite xs then Ok (Float.trunc <$> xs)
  else Raise IntCastingNaNError.

(** [series.iloc[0]] *)
Definition iloc0 {A} (xs : list A) : result A :=
  match xs with
  | [] => Raise IndexError
  | x :: _ => Ok x
  end.

(** [series.iloc[-1]] *)
Definition iloc_last {A} (xs : list A) : result A :=
  match last xs with
  | Some x => Ok x
  | None => Raise IndexError
  end.

(** [series.mean()] on a column of floats: the sum of the values that are
    not missing, a zero standing in the sum for each missing one, by their
    number. *)
Definition mean (xs : list float) : float :=
  let count := length (filter (fun x => Float.isnan x = false) xs) in
  if (0 <? count)%nat then
    Float.div (Numpy.sum (fillna Float.zero xs)) (Float.of_Z (Z.of_nat count))
  else Float.nan.

(** [series.mean()] on a column of booleans: the number of [True] by the
    number of rows.  The sum of the column, each [True] a 1.0, is that
    number: binary64 counts exactly up to [2^53]. *)
Definition mean_bool (xs : list bool) : float :=
  let count := length xs in
  if (0 <? count)%nat then
    Float.div (Float.of_Z (Z.of_nat (length (filter Is_true xs))))
              (Float.of_Z (Z.of_nat count))
  else Float.nan.

(** [data.empty] *)
Definition empty {A} (data : list A) : bool :=
  match data with [] => true | _ => false end.

(** [data[col] = series] for a series over the same index as [data]: row
    [i] receives value [i]. *)
Definition assign {A B C} (f : A -> B -> C) (data : list A) (col : list B)
  : list C := zip_with f data col.

(** Occurrences of a label in a series of labels. *)
Definition occurrences (x : string) (xs : list string) : nat :=
  length (filter (fun y => y = x) xs).

Definition max_occurrences (xs : list string) : nat :=
  foldr (fun x acc => Nat.max (occurrences x xs) acc) 0%nat xs.

(** Insertion into a series sorted by the order of Python on [str]
    (code points, lexicographic). *)
Fixpoint insert_sorted (x : string) (xs : list string) : list string :=
  match xs with
  | [] => [x]
  | y :: ys => if String.leb x y then x :: y :: ys else y :: insert_sorted x ys
  end.

Definition sort_values (xs : list string) : list string :=
  foldr insert_sorted [] xs.

(** [series.mode()]: the values that occur most often, in sorted order. *)
Definition mode (xs : list string) : list string :=
  sort_values
    (filter (fun x => occurrences x xs = max_occurrences xs) (remove_dups xs)).

End Pandas.

(** ** The script *)

Local Open Scope string_scope.

(** [classify_trend(current_value, ma_value, threshold=0.001)]: the default
    threshold is the binary64 value of the literal [0.001], the nearest to
    1/1000. *)
Definition default_threshold : float :=
  Eval vm_compute in Float.div (Float.of_Z 1) (Float.of_Z 1000).

Definition classify_trend (current_value ma_value threshold : float) : string :=
  let ratio := Float.div (Float.sub current_value ma_value) ma_value in
  if Float.gtb ratio threshold then "Increase"
  else if Float.ltb ratio (Float.neg threshold) then "Decrease"
  else "Stable".

(** [get_market_behavior(price_trend, volume_trend)] *)
Definition behavior_map : gmap (string * string) string :=
  list_to_map
    [ (("Increase", "Increase"), "Buying Pressure");
      (("Increase", "Decrease"), "Mild Buying");
      (("Increase", "Stable"), "Cautious Buying");
      (("Decrease", "Increase"), "Selling Pressure");
      (("Decrease", "Decrease"), "Mild Selling");
      (("Decrease", "Stable"), "Cautious Selling");
      (("Stable", "Increase"), "Volume Spike");
      (("Stable", "Decrease"), "Low Activity");
      (("Stable", "Stable"), "Stable Market") ].

Definition get_market_behavior (price_trend volume_trend : string) : string :=
  default "Unknown" (behavior_map !! (price_trend, volume_trend)).

(** The frame returned by [fetch_intraday_data]: one row per sample, with
    the columns [Timestamp], [Price] and [Volume].  The fetched values are
    finite numbers, the volume as the float the arithmetic converts it to;
    a timestamp is an instant on the time line. *)
Record Sample : Type := mkSample {
  Timestamp : Z;
  Price : double;
  Volume : double
}.

(** The values of the two columns. *)
Definition price (s : Sample) : float := value (Price s).
Definition volume (s : Sample) : float := value (Volume s).

(** The frame after [calculate_moving_averages]. *)
Record SmoothedRow : Type := mkSmoothed {
  sample :> Sample;
  Price_MA : float;
  Volume_MA : float
}.

(** The rows of [trends_df] in [analyze_trends]. *)
Record Trends : Type := mkTrends {
  Price_Trend : string;
  Volume_Trend : string;
  Combination : string;
  Behavior : string
}.

(** The frame after [analyze_trends]. *)
Record TrendRow : Type := mkTrendRow {
  smoothed :> SmoothedRow;
  trends :> Trends
}.

(** The frame after [calculate_factor_metrics]: the annotated records. *)
Record AnnotatedRecord : Type := mkAnnotated {
  trend_row :> TrendRow;
  Factor : float;
  Factor_Ratio : float
}.

Definition calculate_moving_averages (data : list Sample) (window : Z)
  : result (list SmoothedRow) :=
  price_ma ← Pandas.rolling_mean window (price <$> data);
  volume_ma ← Pandas.rolling_mean window (volume <$> data);
  mret (Pandas.assign (fun '(s, p) v => mkSmoothed s p v)
          (Pandas.assign pair data price_ma) volume_ma).

Definition analyze_trends (data : list SmoothedRow) : list TrendRow :=
  let trends :=
    (fun row : SmoothedRow =>
       let price_trend :=
         classify_trend (price row) (Price_MA row) default_threshold in
       let volume_trend :=
         classify_trend (volume row) (Volume_MA row) default_threshold in
       let combination :=
         "Price " ++ price_trend ++ " & Volume " ++ volume_trend in
       let behavior := get_market_behavior price_trend volume_trend in
       mkTrends price_trend volume_trend combination behavior) <$> data in
  Pandas.assign mkTrendRow data trends.

Definition calculate_factor_metrics (data : list TrendRow)
  : list AnnotatedRecord :=
  let factor :=
    zip_with Float.mul ((fun r : TrendRow => price r) <$> data)
                       ((fun r : TrendRow => volume r) <$> data) in
  let factor_ratio :=
    (fun x => Float.add x Float.one) <$> Pandas.pct_change factor in
  let factor_ratio := Pandas.fillna Float.one factor_ratio in
  Pandas.assign (fun '(r, f) q => mkAnnotated r f q)
    (Pandas.assign pair data factor) factor_ratio.

(** The three analysis steps of [main], in its order. *)
Definition analyze (data : list Sample) (ma_window : Z)
  : result (list AnnotatedRecord) :=
  data ← calculate_moving_averages data ma_window;
  let data := analyze_trends data in
  let data := calculate_factor_metrics data in
  mret data.

(** The conversions of [main] for the table it displays: the three
    columns it casts to [int], two of them once rounded. *)
Definition display_data (data : list AnnotatedRecord)
  : result (list Z * list Z * list Z) :=
  volume_int ←
    Pandas.astype_int ((fun r : AnnotatedRecord => volume r) <$> data);
  volume_ma_int ←
    Pandas.astype_int
      (Pandas.round_0 ((fun r : AnnotatedRecord => Volume_MA r) <$> data));
  factor_int ← Pandas.astype_int (Pandas.round_0 (Factor <$> data));
  mret (volume_int, volume_ma_int, factor_int).

(** The key metrics of [main], before they are formatted. *)
Record Metrics : Type := mkMetrics {
  current_price : float;
  price_change : float;
  price_change_pct : float;
  current_volume : float;
  volume_vs_avg : float;
  latest_behavior : string;
  latest_combination : string;
  factor_ratio : float;
  factor_change : float
}.

Definition key_metrics (data : list AnnotatedRecord) : result Metrics :=
  let Price_col := (fun r : AnnotatedRecord => price r) <$> data in
  let Volume_col := (fun r : AnnotatedRecord => volume r) <$> data in
  current_price ← Pandas.iloc_last Price_col;
  first_price ← Pandas.iloc0 Price_col;
  let price_change := Float.sub current_price first_price in
  let price_change_pct :=
    Float.mul (Float.div price_change first_price) Float.hundred in
  current_volume ← Pandas.iloc_last Volume_col;
  let avg_volume := Pandas.mean Volume_col in
  let volume_vs_avg :=
    Float.mul (Float.div (Float.sub current_volume avg_volume) avg_volume)
      Float.hundred in
  latest_behavior ←
    Pandas.iloc_last ((fun r : AnnotatedRecord => Behavior r) <$> data);
  latest_combination ←
    Pandas.iloc_last ((fun r : AnnotatedRecord => Combination r) <$> data);
  factor_ratio ← Pandas.iloc_last (Factor_Ratio <$> data);
  let factor_change :=
    Float.mul (Float.sub factor_ratio Float.one) Float.hundred in
  mret (mkMetrics current_price price_change price_change_pct current_volume
          volume_vs_avg latest_behavior latest_combination factor_ratio
          factor_change).

(** The insights of [main]: [(data['Behavior'] == label).mean() * 100]. *)
Definition behavior_pct (label : string) (data : list AnnotatedRecord)
  : float :=
  Float.mul
    (Pandas.mean_bool
       ((fun r : AnnotatedRecord => String.eqb (Behavior r) label) <$> data))
    Float.hundred.

(** [data['Behavior'].mode().iloc[0]], the dominant behavior of [main]. *)
Definition most_common_behavior (data : list AnnotatedRecord) : result string :=
  Pandas.iloc0 (Pandas.mode ((fun r : AnnotatedRecord => Behavior r) <$> data)).

(** What the analysis branch of [main] shows: the table of annotated
    records with the dominant behavior, or the error message. *)
Inductive page : Type :=
| Analysis (table : list AnnotatedRecord) (dominant : string)
| Error (message : string).

(** The page of a failed fetch. *)
Definition fetch_failed : page :=
  Error "Failed to fetch data. Please check the symbol and try again.".

(** [main], from the fetched frame on ([None] when the fetch failed): the
    analysis, the conversions of the display table, which raise on a value
    that is not finite, and the dominant behavior.  The metrics, the charts
    and the insights in between format the columns and raise nothing on a
    frame that is not empty. *)
Definition main (fetched : option (list Sample)) (ma_window : Z)
  : result page :=
  match fetched with
  | Some data =>
      if negb (Pandas.empty data) then
        data ← analyze data ma_window;
        _ ← display_data data;
        dominant ← most_common_behavior data;
        mret (Analysis data dominant)
      else mret fetch_failed
  | None => mret fetch_failed
  end.

(** ** The behavior table of the specification (section 4.3)

    The three trends as an enumeration, the label the classifier prints for
    each, and the table of the specification, row by row. *)

Inductive Trend : Type := Increase | Decrease | Stable.

Definition trend_label (t : Trend) : string :=
  match t with
  | Increase => "Increase"
  | Decrease => "Decrease"
  | Stable => "Stable"
  end.

Definition behavior_table (price_trend volume_trend : Trend) : string :=
  match price_trend, volume_trend with
  | Increase, Increase => "Buying Pressure"
  | Increase, Decrease => "Mild Buying"
  | Increase, Stable => "Cautious Buying"
  | Decrease, Increase => "Selling Pressure"
  | Decrease, Decrease => "Mild Selling"
  | Decrease, Stable => "Cautious Selling"
  | Stable, Increase => "Volume Spike"
  | Stable, Decrease => "Low Activity"
  | Stable, Stable => "Stable Market"
  end.

(** ** The moving average of the specification (section 4.1)

    The arithmetic mean of the elements of a window, a rational number. *)


(** ** The rest of the script *)

(** [get_trend_color(trend)] *)
Definition get_trend_color (trend : string) : string :=
  if String.eqb trend "Increase" then "#00cc44"
  else if String.eqb trend "Decrease" then "#ff4444"
  else "#888888".

(** The [color_map] of [create_behavior_frequency_chart], and the color of
    one bar, [color_map.get(behavior, '#888888')]. *)
Definition color_map : gmap string string :=
  list_to_map
    [ ("Buying Pressure", "#00cc44");
      ("Selling Pressure", "#ff4444");
      ("Mild Buying", "#66ff66");
      ("Mild Selling", "#ff6666");
      ("Stable Market", "#888888");
      ("Volume Spike", "#ffaa00");
      ("Low Activity", "#cccccc");
      ("Cautious Buying", "#44cc44");
      ("Cautious Selling", "#cc4444") ].

Definition behavior_color (behavior : string) : string :=
  default "#888888" (color_map !! behavior).

(** ** Auxiliary definitions of the properties *)

(** The state of [roll_mean] once the window that ends at position [i] is
    settled. *)
Definition state_at (values : list float) (w : nat) (i : nat)
  : Pandas.mean_state :=
  fold_left (Pandas.roll_step values w) (seq 0 (S i)) (Pandas.setup Float.nan).

(** The body of the loop of [analyze_trends]: the trends of one row. *)
Definition trends_of (row : SmoothedRow) : Trends :=
  let price_trend :=
    classify_trend (price row) (Price_MA row) default_threshold in
  let volume_trend :=
    classify_trend (volume row) (Volume_MA row) default_threshold in
  mkTrends price_trend volume_trend
    ("Price " ++ price_trend ++ " & Volume " ++ volume_trend)
    (get_market_behavior price_trend volume_trend).

(** The factor ratio of a record from its factor and the preceding one:
    the percentage change plus one, 1 in place of a missing value. *)
Definition ratio_after (prev cur : float) : float :=
  let q := Float.add (Float.sub (Float.div cur prev) Float.one) Float.one in
  if Float.isnan q then Float.one else q.

(** Whether the table that [main] displays can be built: the moving
    averages of the volume and the factors are all finite. *)
Definition displayable (data : list AnnotatedRecord) : bool :=
  forallb Float.isfinite ((fun r : AnnotatedRecord => Volume_MA r) <$> data)
  && forallb Float.isfinite (Factor <$> data).

(** The nine behaviors. *)
Definition all_behaviors : list string :=
  [ "Buying Pressure"; "Mild Buying"; "Cautious Buying";
    "Selling Pressure"; "Mild Selling"; "Cautious Selling";
    "Volume Spike"; "Low Activity"; "Stable Market" ].

(** What the analysis derives for a record, apart from its sample. *)
Definition derived (r : AnnotatedRecord)
  : float * float * Trends * float * float :=
  (Price_MA r, Volume_MA r, trends r, Factor r, Factor_Ratio r).

(** The record of sample [s] at index [i], computed from the samples
    alone: the closed form of what the three steps of the analysis build
    column by column. *)
Definition record_at (w : Z) (data : list Sample) (i : nat) (s : Sample)
  : AnnotatedRecord :=
  let ma column :=
    default Float.nan (Pandas.roll_mean column (Z.to_nat w) 1 !! i) in
  let row := mkSmoothed s (ma (price <$> data)) (ma (volume <$> data)) in
  let factor := Float.mul (price s) (volume s) in
  mkAnnotated (mkTrendRow row (trends_of row)) factor
    match i with
    | O => Float.one
    | S j =>
        match data !! j with
        | Some prev =>
            ratio_after (Float.mul (price prev) (volume prev)) factor
        | None => Float.one
        end
    end.

(** ** Sample sequences *)

(** A whole number as a fetched value. *)
Definition whole (n : Z)
    (H : Is_true (Float.isfinite (Float.of_Z n) && Float.valid (Float.of_Z n)))
  : double := Double (Float.of_Z n) H.

(** The scenario of the specification (section 8), analysed with a window
    of 2, and its first two samples. *)
Definition scenario : list Sample :=
  [ mkSample 0 (whole 100 I) (whole 1000 I);
    mkSample 1 (whole 101 I) (whole 1200 I);
    mkSample 2 (whole 99 I) (whole 900 I) ].

Definition scenario_start : list Sample := take 2 scenario.

(** No trade in the first interval: the first volume, its moving average
    and the first factor are zero. *)
Definition idle_start : list Sample :=
  [ mkSample 0 (whole 5 I) (whole 0 I);
    mkSample 1 (whole 5 I) (whole 10 I) ].

(** No trade in the first two intervals. *)
Definition idle_twice : list Sample :=
  [ mkSample 0 (whole 5 I) (whole 0 I);
    mkSample 1 (whole 6 I) (whole 0 I);
    mkSample 2 (whole 6 I) (whole 10 I) ].

(** Timestamps that go back, negative prices and negative volumes. *)
Definition disordered_negative : list Sample :=
  [ mkSample 5 (whole (-100) I) (whole (-1000) I);
    mkSample 3 (whole (-101) I) (whole (-1200) I) ].

(** A factor that falls from 1000 to 100. *)
Definition tenfold_drop : list Sample :=
  [ mkSample 0 (whole 1 I) (whole 1000 I);
    mkSample 1 (whole 1 I) (whole 100 I) ].

(** Prices of [2^1000] with volumes of [2^30]: every factor overflows. *)
Definition huge : list Sample :=
  [ mkSample 0 (whole (2 ^ 1000) I) (whole (2 ^ 30) I);
    mkSample 1 (whole (2 ^ 1000) I) (whole (2 ^ 30) I) ].

(** The price 255.91 and the value [255.91 * (1 + 0.001)], as binary64
    computes them. *)
Definition price_255_91 : float :=
  Eval vm_compute in Float.div (Float.of_Z 25591) (Float.of_Z 100).

Definition boundary_of (m t : float) : float :=
  Float.mul m (Float.add Float.one t).



(** The records of the scenario. *)
Definition scenario_records : list AnnotatedRecord :=
  match analyze scenario 2 with
  | Ok recs => recs
  | Raise _ => []
  end.

(** * Properties *)

(** ** Arithmetic on floats *)

Section FloatFacts.
Import Float.

Lemma SFcompare_refl (x : float) : isnan x = false -> SFcompare x x = Some Eq.
Proof.
  destruct x as [s|s| |s m e]; try done; intros _; simpl.
  - by destruct s.
  - destruct s; by rewrite Z.compare_refl, Pos.compare_cont_refl.
Qed.

Lemma float_eqb_refl (x : float) : isnan x = false -> eqb x x = true.
Proof. intros H. unfold eqb, SFeqb. by rewrite SFcompare_refl. Qed.

Lemma float_eqb_nan (x : float) : eqb nan x = false.
Proof. done. Qed.

Lemma float_ltb_irrefl (x : float) : ltb x x = false.
Proof.
  unfold ltb, SFltb. destruct (isnan x) eqn:H.
  - by destruct x.
  - by rewrite SFcompare_refl.
Qed.

Lemma double_finite (d : double) : isfinite d = true.
Proof.
  destruct d as [x H]. simpl. apply andb_True in H as [H _].
  by apply Is_true_true.
Qed.

Lemma double_valid (d : double) : valid d = true.
Proof.
  destruct d as [x H]. simpl. apply andb_True in H as [_ H].
  by apply Is_true_true.
Qed.

Lemma isfinite_not_nan (x : float) : isfinite x = true -> isnan x = false.
Proof. by destruct x. Qed.

Lemma isfinite_not_inf (x : float) : isfinite x = true -> isinf x = false.
Proof. by destruct x. Qed.

Lemma shl_align_same (m : positive) (e : Z) : shl_align m e e = (m, e).
Proof. unfold shl_align. by rewrite Z.sub_diag. Qed.

(** [x - x] is [+0] for every finite [x]. *)
Lemma float_sub_diag (x : float) : isfinite x = true -> sub x x = zero.
Proof.
  destruct x as [s|s| |s m e]; try done; intros _.
  - by destruct s.
  - unfold sub, SFsub. rewrite Z.min_id, shl_align_same. simpl fst.
    by rewrite Z.sub_diag.
Qed.

Lemma div_eucl_shiftl (m : positive) (n : Z) :
  0 <= n -> Z.div_eucl (Z.shiftl (Zpos m) n) (Zpos m) = (2 ^ n, 0).
Proof.
  intros Hn. rewrite Z.shiftl_mul_pow2 by done.
  pose proof (Z_div_mod (Zpos m * 2 ^ n) (Zpos m) eq_refl) as H.
  destruct (Z.div_eucl (Zpos m * 2 ^ n) (Zpos m)) as [q r] eqn:Hqr.
  destruct H as [H1 H2].
  assert (Hq : q = 2 ^ n) by nia.
  subst q. f_equal. lia.
Qed.

Lemma new_location_0 (n : Z) : new_location n 0 = loc_Exact.
Proof. unfold new_location. by destruct (Z.even n). Qed.

(** [x / x] is [1] for every finite [x] other than zero: the quotient of
    the mantissas is exact. *)
Lemma float_div_self (s : bool) (m : positive) (e : Z) :
  div (S754_finite s m e) (S754_finite s m e) = one.
Proof.
  unfold div, SFdiv, SFdiv_core_binary.
  replace (Zdigits2 (Zpos m) + e - (Zdigits2 (Zpos m) + e)) with 0 by lia.
  rewrite Z.sub_diag.
  change (Z.min (fexp prec emax 0) 0) with (-53).
  change (0 - -53) with 53.
  cbv iota beta zeta.
  rewrite (div_eucl_shiftl m 53) by lia.
  rewrite new_location_0. by destruct s.
Qed.

(** Rounding a mantissa that is not negative never gives a NaN. *)
Lemma shr_1_nonneg (mrs : shr_record) :
  0 <= shr_m mrs -> 0 <= shr_m (shr_1 mrs).
Proof.
  destruct mrs as [m r s]. simpl.
  destruct m as [|p|p]; [done | | lia]. by destruct p.
Qed.

Lemma iter_shr_1_nonneg (p : positive) (mrs : shr_record) :
  0 <= shr_m mrs -> 0 <= shr_m (SpecFloat.iter_pos shr_1 p mrs).
Proof.
  revert mrs. induction p as [p IH|p IH|]; simpl; intros mrs H.
  - by apply IH, IH, shr_1_nonneg.
  - by apply IH, IH.
  - by apply shr_1_nonneg.
Qed.

Lemma shr_nonneg (mrs : shr_record) (e n : Z) :
  0 <= shr_m mrs -> 0 <= shr_m (shr mrs e n).1.
Proof.
  intros H. unfold shr. destruct n; simpl; [done | | done].
  by apply iter_shr_1_nonneg.
Qed.

Lemma shr_fexp_nonneg (m e : Z) (l : location) :
  0 <= m -> 0 <= shr_m (shr_fexp prec emax m e l).1.
Proof.
  intros H. unfold shr_fexp. apply shr_nonneg.
  by destruct l as [|[]].
Qed.

Lemma round_nearest_even_nonneg (m : Z) (l : location) :
  0 <= m -> 0 <= round_nearest_even m l.
Proof.
  intros H. unfold round_nearest_even.
  destruct l as [|[]]; try done; [destruct (Z.even m)|]; lia.
Qed.

Lemma binary_round_aux_not_nan (s : bool) (m e : Z) (l : location) :
  0 <= m -> isnan (binary_round_aux prec emax s m e l) = false.
Proof.
  intros H. unfold binary_round_aux.
  pose proof (shr_fexp_nonneg m e l H) as H1.
  destruct (shr_fexp prec emax m e l) as [mrs' e'].
  simpl in H1.
  pose proof (shr_fexp_nonneg
                (round_nearest_even (shr_m mrs') (loc_of_shr_record mrs'))
                e' loc_Exact
                (round_nearest_even_nonneg _ _ H1)) as H2.
  destruct (shr_fexp prec emax _ e' loc_Exact) as [mrs'' e''].
  simpl in H2.
  destruct (shr_m mrs'') as [|p|p]; [done | | lia].
  by destruct (e'' <=? emax - prec)%Z.
Qed.

Lemma binary_normalize_not_nan (m e : Z) (s : bool) :
  isnan (binary_normalize prec emax m e s) = false.
Proof.
  unfold binary_normalize. destruct m as [|p|p]; [done | |].
  - unfold binary_round. destruct (shl_align _ _ _) as [mz ez].
    by apply binary_round_aux_not_nan.
  - unfold binary_round. destruct (shl_align _ _ _) as [mz ez].
    by apply binary_round_aux_not_nan.
Qed.

Lemma mul_not_nan (x y : float) :
  isfinite x = true -> isfinite y = true -> isnan (mul x y) = false.
Proof.
  destruct x as [sx|sx| |sx mx ex], y as [sy|sy| |sy my ey]; try done.
  intros _ _. unfold mul, SFmul. by apply binary_round_aux_not_nan.
Qed.

Lemma div_eucl_nonneg (a : Z) (b : positive) :
  0 <= a -> 0 <= (Z.div_eucl a (Zpos b)).1.
Proof.
  intros Ha. pose proof (Z_div_mod a (Zpos b) eq_refl) as H.
  destruct (Z.div_eucl a (Zpos b)) as [q r]. simpl. nia.
Qed.

(** A quotient by a finite value other than zero is NaN only when the
    numerator is. *)
Lemma div_not_nan (x : float) (s : bool) (m : positive) (e : Z) :
  isnan x = false -> isnan (div x (S754_finite s m e)) = false.
Proof.
  destruct x as [sx|sx| |sx mx ex]; try done. intros _.
  unfold div, SFdiv, SFdiv_core_binary.
  set (m' := match _ with Z0 => _ | Zpos _ => _ | Zneg _ => _ end).
  assert (Hm' : 0 <= m').
  { subst m'. destruct (_ - _ - _) as [|p|p]; try done.
    apply Z.shiftl_nonneg. lia. }
  pose proof (div_eucl_nonneg m' m Hm') as Hq.
  destruct (Z.div_eucl m' (Zpos m)) as [q r]. simpl in Hq.
  by apply binary_round_aux_not_nan.
Qed.

Lemma add_one_not_nan (x : float) : isnan x = false -> isnan (add x one) = false.
Proof.
  destruct x as [sx|sx| |sx mx ex]; try done; intros _.
  unfold add, SFadd, one. apply binary_normalize_not_nan.
Qed.

Lemma sub_one_not_nan (x : float) : isnan x = false -> isnan (sub x one) = false.
Proof.
  destruct x as [sx|sx| |sx mx ex]; try done; intros _.
  unfold sub, SFsub, one. apply binary_normalize_not_nan.
Qed.

End FloatFacts.

(** ** Trend classifier *)

Section Classifier.
Import Float.

(** Whatever the values, special ones included, the result is one of the
    three labels. *)
Lemma classify_trend_total (v m t : float) :
  classify_trend v m t = "Increase"
  \/ classify_trend v m t = "Decrease"
  \/ classify_trend v m t = "Stable".
Proof.
  unfold classify_trend.
  destruct (gtb _ _); [by left|].
  destruct (ltb _ _); [by right; left | by right; right].
Qed.

(** A finite value equal to its average is stable, zero included: the
    ratio is a zero, or NaN. *)
Lemma classify_trend_same (x : float) :
  isfinite x = true -> classify_trend x x default_threshold = "Stable".
Proof.
  intros H. unfold classify_trend. rewrite float_sub_diag by done.
  destruct x as [s|s| |s m e]; try done; by destruct s.
Qed.


(** A threshold above zero is a positive number or the positive
    infinity. *)
Lemma positive_threshold (t : float) :
  ltb zero t = true ->
  (exists m e, t = S754_finite false m e) \/ t = S754_infinity false.
Proof.
  destruct t as [s|s| |s m e]; try done.
  - destruct s; [done | by right].
  - destruct s; [done | left; by eexists _, _].
Qed.

(** With a threshold above zero the two comparisons of the classifier
    exclude each other. *)
Lemma thresholds_exclusive (ratio t : float) :
  ltb zero t = true -> gtb ratio t = true -> ltb ratio (neg t) = true -> False.
Proof.
  intros [(m & e & ->)| ->]%positive_threshold.
  - destruct ratio as [s|s| |s mr er]; try done.
    + by destruct s.
    + by destruct s.
  - destruct ratio as [s|s| |s mr er]; try done. by destruct s.
Qed.

End Classifier.

(** ** The rolling mean *)

Section RollingMean.
Import Float Pandas.

Lemma length_roll_mean_loop (values : list float) (w : nat) (minp : Z)
    (st : mean_state) (positions : list nat) :
  length (roll_mean_loop values w minp st positions) = length positions.
Proof.
  revert st. induction positions as [|i positions IH]; intros st; simpl.
  - done.
  - by rewrite IH.
Qed.

Lemma length_roll_mean (values : list float) (w : nat) (minp : Z) :
  length (roll_mean values w minp) = length values.
Proof. unfold roll_mean. by rewrite length_roll_mean_loop, length_seq. Qed.

Lemma rolling_mean_ok (w : Z) (xs : list float) :
  1 <= w ->
  rolling_mean w xs = Ok (roll_mean (prep_values xs) (Z.to_nat w) 1).
Proof.
  intros Hw. unfold rolling_mean. by rewrite (proj2 (Z.ltb_ge w 1) Hw).
Qed.

Lemma rolling_mean_raises (w : Z) (xs : list float) :
  w < 1 -> rolling_mean w xs = Raise ValueError.
Proof.
  intros Hw. unfold rolling_mean. by rewrite (proj2 (Z.ltb_lt w 1) Hw).
Qed.

Lemma length_prep_values (xs : list float) :
  length (prep_values xs) = length xs.
Proof. unfold prep_values. by rewrite length_fmap. Qed.

Lemma rolling_mean_length (w : Z) (xs ys : list float) :
  rolling_mean w xs = Ok ys -> length ys = length xs.
Proof.
  unfold rolling_mean. destruct (w <? 1)%Z; [done|].
  intros [= <-]. by rewrite length_roll_mean, length_prep_values.
Qed.

(** Finite values are handed over as they are. *)
Lemma prep_values_finite (xs : list float) :
  Forall (fun x => isfinite x = true) xs -> prep_values xs = xs.
Proof.
  intros H. unfold prep_values.
  induction H as [|x xs Hx _ IH]; [done|].
  rewrite fmap_cons, IH. by rewrite (isfinite_not_inf x Hx).
Qed.

Lemma prep_values_take (n : nat) (xs : list float) :
  prep_values (take n xs) = take n (prep_values xs).
Proof. unfold prep_values. by rewrite fmap_take. Qed.

(** *** The state, window by window *)

Lemma roll_mean_loop_lookup (values : list float) (w : nat) (minp : Z)
    (n k : nat) (st : mean_state) (j : nat) :
  (j < n)%nat ->
  roll_mean_loop values w minp st (seq k n) !! j
  = Some (calc_mean minp (fold_left (roll_step values w) (seq k (S j)) st)).
Proof.
  revert k st j. induction n as [|n IH]; intros k st j Hj; [lia|].
  destruct j as [|j]; [done|].
  simpl. rewrite IH by lia. done.
Qed.

Lemma roll_mean_lookup (values : list float) (w : nat) (minp : Z) (i : nat) :
  (i < length values)%nat ->
  roll_mean values w minp !! i = Some (calc_mean minp (state_at values w i)).
Proof. intros Hi. unfold roll_mean. by rewrite roll_mean_loop_lookup. Qed.

Lemma state_at_0 (values : list float) (w : nat) :
  state_at values w 0 = roll_step values w (setup nan) 0.
Proof. done. Qed.

Lemma state_at_S (values : list float) (w : nat) (i : nat) :
  state_at values w (S i) = roll_step values w (state_at values w i) (S i).
Proof.
  unfold state_at. rewrite (seq_S (S i)), fold_left_app. done.
Qed.

(** Two series with the same states have the same rolling mean. *)
Lemma roll_mean_ext (values values' : list float) (w w' : nat) (minp : Z) :
  length values = length values' ->
  (forall i, (i < length values)%nat ->
     state_at values w i = state_at values' w' i) ->
  roll_mean values w minp = roll_mean values' w' minp.
Proof.
  intros Hlen Hst. apply list_eq. intros i.
  destruct (decide (i < length values)%nat) as [Hi|Hi].
  - rewrite !roll_mean_lookup by lia. by rewrite Hst.
  - rewrite !(proj2 (lookup_ge_None _ _)); [done | |];
      rewrite length_roll_mean; lia.
Qed.

(** *** Windows *)

Lemma slice_single (values : list float) (i : nat) (x : float) :
  values !! i = Some x -> slice values i (i + 1) = [x].
Proof.
  intros Hx. unfold slice. rewrite (drop_S _ _ _ Hx).
  replace (i + 1 - i)%nat with 1%nat by lia. done.
Qed.

Lemma slice_nil (values : list float) (a : nat) : slice values a a = [].
Proof. unfold slice. by rewrite Nat.sub_diag. Qed.

Lemma length_slice (values : list float) (a b : nat) :
  (b <= length values)%nat -> length (slice values a b) = (b - a)%nat.
Proof.
  intros Hb. unfold slice. rewrite length_take, length_drop. lia.
Qed.

Lemma slice_take (values : list float) (n a b : nat) :
  (b <= n)%nat -> slice (take n values) a b = slice values a b.
Proof.
  intros Hb. unfold slice. rewrite skipn_firstn_comm, take_take.
  f_equal. lia.
Qed.

Lemma elem_of_slice (values : list float) (a b : nat) (x : float) :
  x ∈ slice values a b -> exists j, (j < b)%nat /\ values !! j = Some x.
Proof.
  unfold slice. intros [j Hj]%list_elem_of_lookup.
  apply lookup_take_Some in Hj as [Hj Hlt].
  rewrite lookup_drop in Hj. exists (a + j)%nat. split; [lia | done].
Qed.

(** The first window, and every window of a rolling mean of one value,
    holds one value. *)
Lemma roll_step_first (values : list float) (w : nat) (st : mean_state)
    (x : float) :
  (1 <= w)%nat -> values !! 0%nat = Some x ->
  roll_step values w st 0 = add_mean (setup x) x.
Proof.
  intros Hw Hx. unfold roll_step, window_start, window_end.
  rewrite bool_decide_true by (by left).
  replace (0 + 1 - w)%nat with 0%nat by lia.
  rewrite Hx. by rewrite (slice_single values 0 x Hx).
Qed.

Lemma roll_step_window_1 (values : list float) (st : mean_state) (i : nat)
    (x : float) :
  values !! i = Some x -> roll_step values 1 st i = add_mean (setup x) x.
Proof.
  intros Hx. unfold roll_step, window_start, window_end.
  rewrite bool_decide_true by (destruct i; [by left | right; lia]).
  replace (i + 1 - 1)%nat with i by lia.
  rewrite Hx. by rewrite (slice_single values i x Hx).
Qed.

(** The mean of a window of one value is the value. *)
Lemma calc_mean_single (x : float) : calc_mean 1 (add_mean (setup x) x) = x.
Proof.
  unfold add_mean. destruct (isnan x) eqn:Hx.
  - destruct x; try done.
  - rewrite float_eqb_refl by done. unfold calc_mean. simpl.
    by rewrite float_eqb_refl.
Qed.

Lemma state_at_window_1 (values : list float) (i : nat) (x : float) :
  values !! i = Some x -> state_at values 1 i = add_mean (setup x) x.
Proof.
  intros Hx. destruct i as [|i].
  - rewrite state_at_0. by apply roll_step_window_1.
  - rewrite state_at_S. by apply roll_step_window_1.
Qed.

(** With a window of 1 the rolling mean is the series. *)
Lemma roll_mean_window_1 (values : list float) : roll_mean values 1 1 = values.
Proof.
  apply list_eq. intros i.
  destruct (values !! i) as [x|] eqn:Hx.
  - rewrite roll_mean_lookup by (by apply lookup_lt_Some in Hx).
    by rewrite (state_at_window_1 values i x Hx), calc_mean_single.
  - apply lookup_ge_None. rewrite length_roll_mean. by apply lookup_ge_None.
Qed.

(** The first mean is the first value. *)
Lemma roll_mean_first (values : list float) (w : nat) (x : float) :
  (1 <= w)%nat -> values !! 0%nat = Some x ->
  roll_mean values w 1 !! 0%nat = Some x.
Proof.
  intros Hw Hx. rewrite roll_mean_lookup by (by apply lookup_lt_Some in Hx).
  rewrite state_at_0, (roll_step_first values w _ x Hw Hx).
  by rewrite calc_mean_single.
Qed.

(** *** A prefix of the series *)

Lemma roll_step_take (values : list float) (n w : nat) (st : mean_state)
    (i : nat) :
  (1 <= w)%nat -> (i < n)%nat ->
  roll_step (take n values) w st i = roll_step values w st i.
Proof.
  intros Hw Hi. unfold roll_step, window_start, window_end.
  rewrite !slice_take by lia.
  rewrite lookup_take_lt by lia. done.
Qed.

Lemma state_at_take (values : list float) (n w i : nat) :
  (1 <= w)%nat -> (i < n)%nat ->
  state_at (take n values) w i = state_at values w i.
Proof.
  intros Hw. induction i as [|i IH]; intros Hi.
  - rewrite !state_at_0. by apply roll_step_take.
  - rewrite !state_at_S, IH by lia. by apply roll_step_take.
Qed.

Lemma roll_mean_take (values : list float) (n w : nat) (minp : Z) :
  (1 <= w)%nat ->
  roll_mean (take n values) w minp = take n (roll_mean values w minp).
Proof.
  intros Hw. apply list_eq. intros i.
  destruct (decide (i < n)%nat) as [Hn|Hn].
  - rewrite lookup_take_lt by done.
    destruct (decide (i < length values)%nat) as [Hi|Hi].
    + rewrite (roll_mean_lookup values) by done.
      rewrite roll_mean_lookup by (rewrite length_take; lia).
      by rewrite state_at_take.
    + rewrite !(proj2 (lookup_ge_None _ _)); [done | |];
        rewrite length_roll_mean, ?length_take; lia.
  - rewrite lookup_take_ge by lia.
    apply lookup_ge_None. rewrite length_roll_mean, length_take. lia.
Qed.

(** *** Windows at least as long as the series *)

Lemma roll_step_wide (values : list float) (w w' : nat) (st : mean_state)
    (i : nat) :
  (i < w)%nat -> (i < w')%nat ->
  roll_step values w st i = roll_step values w' st i.
Proof.
  intros Hw Hw'. unfold roll_step, window_start, window_end.
  replace (i + 1 - w)%nat with 0%nat by lia.
  replace (i + 1 - w')%nat with 0%nat by lia.
  replace (i - 1 + 1 - w)%nat with 0%nat by lia.
  replace (i - 1 + 1 - w')%nat with 0%nat by lia.
  done.
Qed.

Lemma state_at_wide (values : list float) (w w' i : nat) :
  (i < w)%nat -> (i < w')%nat ->
  state_at values w i = state_at values w' i.
Proof.
  induction i as [|i IH]; intros Hw Hw'.
  - rewrite !state_at_0. by apply roll_step_wide.
  - rewrite !state_at_S, IH by lia. by apply roll_step_wide.
Qed.

(** *** A constant series *)

Lemma fold_add_mean_constant (c : float) (l : list float) (st : mean_state) :
  isnan c = false -> Forall (fun x => x = c) l -> prev_value st = c ->
  let st' := fold_left add_mean l st in
  prev_value st' = c
  /\ nobs st' = nobs st + Z.of_nat (length l)
  /\ num_consecutive_same_value st'
     = num_consecutive_same_value st + Z.of_nat (length l).
Proof.
  intros Hc Hl. revert st. induction Hl as [|x l -> _ IH]; intros st Hprev.
  - simpl. split_and!; [done | lia | lia].
  - simpl fold_left.
    destruct (IH (add_mean st c)) as (H1 & H2 & H3).
    { unfold add_mean. by rewrite float_eqb_refl. }
    cbv zeta. split; [done|].
    rewrite H2, H3. unfold add_mean. rewrite float_eqb_refl by done. simpl.
    rewrite Hprev, float_eqb_refl by done.
    rewrite Nat2Z.inj_succ. lia.
Qed.

Lemma fold_remove_mean_constant (c : float) (l : list float)
    (st : mean_state) :
  isnan c = false -> Forall (fun x => x = c) l ->
  let st' := fold_left remove_mean l st in
  prev_value st' = prev_value st
  /\ nobs st' = nobs st - Z.of_nat (length l)
  /\ num_consecutive_same_value st' = num_consecutive_same_value st.
Proof.
  intros Hc Hl. revert st. induction Hl as [|x l -> _ IH]; intros st.
  - simpl. split_and!; [done | lia | done].
  - simpl fold_left.
    destruct (IH (remove_mean st c)) as (H1 & H2 & H3).
    cbv zeta. rewrite H1, H2, H3. unfold remove_mean.
    rewrite float_eqb_refl by done. simpl.
    rewrite Nat2Z.inj_succ. split_and!; [done | lia | done].
Qed.

Lemma slice_constant (values : list float) (c : float) (a b : nat) :
  Forall (fun x => x = c) values -> Forall (fun x => x = c) (slice values a b).
Proof.
  intros H. unfold slice. by apply Forall_take, Forall_drop.
Qed.

(** In a constant series the equal values met in a row are at least as
    many as the observations of the window. *)
Lemma state_at_constant (values : list float) (c : float) (w i : nat) :
  (1 <= w)%nat -> isnan c = false -> Forall (fun x => x = c) values ->
  (i < length values)%nat ->
  let st := state_at values w i in
  prev_value st = c
  /\ nobs st = Z.of_nat (window_end i - window_start w i)
  /\ nobs st <= num_consecutive_same_value st.
Proof.
  intros Hw Hc Hall. induction i as [|i IH]; intros Hi.
  - destruct (lookup_lt_is_Some_2 values 0 Hi) as [x Hx].
    assert (x = c) as ->.
    { rewrite Forall_forall in Hall. apply Hall.
      by apply list_elem_of_lookup_2 in Hx. }
    cbv zeta. rewrite state_at_0, (roll_step_first values w _ c Hw Hx).
    unfold add_mean, window_end, window_start. rewrite float_eqb_refl by done.
    simpl. rewrite float_eqb_refl by done.
    replace (1 - (1 - w))%nat with 1%nat by lia. done.
  - destruct IH as (Hprev & Hnobs & Hsame); [lia|].
    cbv zeta. rewrite state_at_S.
    set (st := state_at values w i) in *.
    unfold roll_step.
    destruct (bool_decide _) eqn:Hfresh.
    + apply bool_decide_eq_true in Hfresh as [Hfresh|Hfresh]; [done|].
      unfold window_end, window_start in Hfresh |- *.
      assert (w = 1)%nat as -> by lia.
      replace (S i + 1 - 1)%nat with (S i) by lia.
      destruct (lookup_lt_is_Some_2 values (S i) Hi) as [x Hx].
      assert (x = c) as ->.
      { rewrite Forall_forall in Hall. apply Hall.
        by apply list_elem_of_lookup_2 in Hx. }
      rewrite Hx, (slice_single values (S i) c Hx). simpl.
      unfold add_mean. rewrite float_eqb_refl by done. simpl.
      rewrite float_eqb_refl by done.
      split_and!; [done | lia | lia].
    + apply bool_decide_eq_false in Hfresh.
      destruct (fold_remove_mean_constant c
                  (slice values (window_start w (S i - 1)) (window_start w (S i)))
                  st Hc) as (R1 & R2 & R3).
      { by apply slice_constant. }
      set (st' := fold_left remove_mean _ st) in *.
      destruct (fold_add_mean_constant c
                  (slice values (window_end (S i - 1)) (window_end (S i)))
                  st' Hc) as (A1 & A2 & A3).
      { by apply slice_constant. }
      { by rewrite R1. }
      split; [done|]. rewrite A2, A3, R2, R3, Hnobs.
      rewrite !length_slice by (unfold window_end, window_start; lia).
      unfold window_end, window_start in *. split; lia.
Qed.

(** The rolling mean of a constant series is the series. *)
Lemma roll_mean_constant (values : list float) (c : float) (w : nat) :
  (1 <= w)%nat -> isnan c = false -> Forall (fun x => x = c) values ->
  roll_mean values w 1 = values.
Proof.
  intros Hw Hc Hall. apply list_eq. intros i.
  destruct (values !! i) as [x|] eqn:Hx.
  - assert (Hi : (i < length values)%nat) by (by apply lookup_lt_Some in Hx).
    assert (x = c) as ->.
    { rewrite Forall_forall in Hall. apply Hall.
      by apply list_elem_of_lookup_2 in Hx. }
    rewrite roll_mean_lookup by done.
    destruct (state_at_constant values c w i Hw Hc Hall Hi)
      as (Hprev & Hnobs & Hsame).
    unfold calc_mean.
    assert (H1 : 1 <= nobs (state_at values w i)).
    { rewrite Hnobs. unfold window_end, window_start. lia. }
    rewrite (proj2 (Z.leb_le _ _) H1).
    rewrite (proj2 (Z.ltb_lt 0 _)) by lia. simpl.
    rewrite Z.geb_leb, (proj2 (Z.leb_le _ _) Hsame). by rewrite Hprev.
  - apply lookup_ge_None. rewrite length_roll_mean. by apply lookup_ge_None.
Qed.

End RollingMean.

Section RollingObservations.
Import Float Pandas.



Lemma slice_Forall (P : float -> Prop) (values : list float) (a b : nat) :
  Forall P values -> Forall P (slice values a b).
Proof. intros H. unfold slice. by apply Forall_take, Forall_drop. Qed.




End RollingObservations.

(** ** The frames of the pipeline, column by column *)

Section Frames.
Import Float Pandas.

Lemma zip_with_diag {A B C} (f : A -> B -> C) (g : A -> B) (l : list A) :
  zip_with f l (g <$> l) = (fun x => f x (g x)) <$> l.
Proof. induction l as [|x l IH]; csimpl; [done | by f_equal]. Qed.

Lemma zip_with_fmap_both {A B C D} (f : B -> C -> D) (g : A -> B)
    (h : A -> C) (l : list A) :
  zip_with f (g <$> l) (h <$> l) = (fun x => f (g x) (h x)) <$> l.
Proof. induction l as [|x l IH]; csimpl; [done | by f_equal]. Qed.

(** *** [calculate_moving_averages] *)

Lemma price_column_finite (data : list Sample) :
  Forall (fun x => isfinite x = true) (price <$> data).
Proof.
  apply Forall_fmap, Forall_forall. intros s _. apply double_finite.
Qed.

Lemma volume_column_finite (data : list Sample) :
  Forall (fun x => isfinite x = true) (volume <$> data).
Proof.
  apply Forall_fmap, Forall_forall. intros s _. apply double_finite.
Qed.

Lemma assign_columns (data : list Sample) (ps vs : list float) :
  length ps = length data -> length vs = length data ->
  let rows :=
    assign (fun '(s, p) v => mkSmoothed s p v) (assign pair data ps) vs in
  sample <$> rows = data /\ Price_MA <$> rows = ps /\ Volume_MA <$> rows = vs.
Proof.
  revert ps vs. induction data as [|s data IH]; intros [|p ps] [|v vs];
    try done.
  intros [= Hp] [= Hv]. destruct (IH ps vs Hp Hv) as (H1 & H2 & H3).
  cbv zeta in *. unfold assign in *. csimpl.
  by rewrite H1, H2, H3.
Qed.

Lemma calculate_moving_averages_ok (data : list Sample) (w : Z) :
  1 <= w ->
  exists rows : list SmoothedRow,
    calculate_moving_averages data w = Ok rows
    /\ sample <$> rows = data
    /\ Price_MA <$> rows = roll_mean (price <$> data) (Z.to_nat w) 1
    /\ Volume_MA <$> rows = roll_mean (volume <$> data) (Z.to_nat w) 1
    /\ rolling_mean w (price <$> data) = Ok (Price_MA <$> rows)
    /\ rolling_mean w (volume <$> data) = Ok (Volume_MA <$> rows).
Proof.
  intros Hw. unfold calculate_moving_averages.
  rewrite !rolling_mean_ok by done.
  rewrite !prep_values_finite
    by (apply price_column_finite || apply volume_column_finite).
  destruct (assign_columns data
              (roll_mean (price <$> data) (Z.to_nat w) 1)
              (roll_mean (volume <$> data) (Z.to_nat w) 1))
    as (H1 & H2 & H3).
  { by rewrite length_roll_mean, length_fmap. }
  { by rewrite length_roll_mean, length_fmap. }
  eexists. split; [reflexivity|]. by rewrite H1, H2, H3.
Qed.

Lemma calculate_moving_averages_raises (data : list Sample) (w : Z) :
  w < 1 -> calculate_moving_averages data w = Raise ValueError.
Proof.
  intros Hw. unfold calculate_moving_averages.
  by rewrite !rolling_mean_raises by done.
Qed.

(** *** [analyze_trends] *)

Lemma analyze_trends_fmap (rows : list SmoothedRow) :
  analyze_trends rows = (fun row => mkTrendRow row (trends_of row)) <$> rows.
Proof.
  unfold analyze_trends, assign. cbv zeta. by rewrite zip_with_diag.
Qed.

Lemma analyze_trends_rows (data : list SmoothedRow) :
  smoothed <$> analyze_trends data = data.
Proof.
  rewrite analyze_trends_fmap, <- list_fmap_compose.
  by rewrite <- (list_fmap_id data) at 2.
Qed.

Lemma analyze_trends_length (data : list SmoothedRow) :
  length (analyze_trends data) = length data.
Proof. by rewrite <- (analyze_trends_rows data) at 2; rewrite length_fmap. Qed.

(** *** [calculate_factor_metrics] *)

Lemma factor_column (data : list TrendRow) :
  zip_with mul ((fun r : TrendRow => price r) <$> data)
               ((fun r : TrendRow => volume r) <$> data)
  = (fun r : TrendRow => mul (price r) (volume r)) <$> data.
Proof. apply zip_with_fmap_both. Qed.

Lemma length_shift (xs : list float) : length (shift xs) = length xs.
Proof. unfold shift. rewrite length_take. simpl. lia. Qed.

Lemma length_pct_change (xs : list float) :
  length (pct_change xs) = length xs.
Proof.
  unfold pct_change. rewrite length_zip_with, length_shift. lia.
Qed.

Lemma shift_lookup_S (xs : list float) (i : nat) :
  (S i < length xs)%nat -> shift xs !! S i = xs !! i.
Proof.
  intros Hi. unfold shift. by rewrite lookup_take_lt by done.
Qed.

Lemma pct_change_lookup_S (xs : list float) (i : nat) (prev x : float) :
  xs !! i = Some prev -> xs !! S i = Some x ->
  pct_change xs !! S i = Some (sub (div x prev) one).
Proof.
  intros Hprev Hx. unfold pct_change.
  rewrite lookup_zip_with, Hx. simpl.
  rewrite shift_lookup_S by (by apply lookup_lt_Some in Hx).
  by rewrite Hprev.
Qed.

Lemma div_nan_r (x : float) : div x nan = nan.
Proof. by destruct x. Qed.

Lemma pct_change_lookup_0 (x : float) (xs : list float) :
  pct_change (x :: xs) !! 0%nat = Some nan.
Proof. unfold pct_change. simpl. by rewrite div_nan_r. Qed.

Lemma calculate_factor_metrics_rows (data : list TrendRow) :
  trend_row <$> calculate_factor_metrics data = data.
Proof.
  unfold calculate_factor_metrics, assign, fillna. rewrite factor_column.
  apply list_eq. intros i.
  rewrite list_lookup_fmap, !lookup_zip_with, !list_lookup_fmap.
  destruct (data !! i) as [r|] eqn:Hr; simpl; [|done].
  assert (Hlen : (i < length (pct_change
            ((fun r : TrendRow => mul (price r) (volume r)) <$> data)))%nat).
  { rewrite length_pct_change, length_fmap. by apply lookup_lt_Some in Hr. }
  apply lookup_lt_is_Some_2 in Hlen. destruct Hlen as [q Hq].
  by rewrite Hq.
Qed.

Lemma calculate_factor_metrics_length (data : list TrendRow) :
  length (calculate_factor_metrics data) = length data.
Proof.
  rewrite <- (calculate_factor_metrics_rows data) at 2.
  by rewrite length_fmap.
Qed.

Lemma calculate_factor_metrics_factor (data : list TrendRow) :
  Factor <$> calculate_factor_metrics data
  = (fun r : TrendRow => mul (price r) (volume r)) <$> data.
Proof.
  unfold calculate_factor_metrics, assign, fillna. rewrite factor_column.
  apply list_eq. intros i.
  rewrite list_lookup_fmap, !lookup_zip_with, !list_lookup_fmap.
  destruct (data !! i) as [r|] eqn:Hr; simpl; [|done].
  assert (Hlen : (i < length (pct_change
            ((fun r : TrendRow => mul (price r) (volume r)) <$> data)))%nat).
  { rewrite length_pct_change, length_fmap. by apply lookup_lt_Some in Hr. }
  apply lookup_lt_is_Some_2 in Hlen. destruct Hlen as [q Hq].
  by rewrite Hq.
Qed.

Lemma calculate_factor_metrics_ratio (data : list TrendRow) :
  Factor_Ratio <$> calculate_factor_metrics data
  = fillna one
      ((fun x => add x one)
         <$> pct_change (Factor <$> calculate_factor_metrics data)).
Proof.
  rewrite calculate_factor_metrics_factor.
  unfold calculate_factor_metrics, assign. rewrite factor_column.
  apply list_eq. intros i. unfold fillna.
  rewrite list_lookup_fmap, !lookup_zip_with, !list_lookup_fmap.
  destruct (pct_change _ !! i) as [q|] eqn:Hq; simpl.
  - assert (Hlen : (i < length data)%nat).
    { apply lookup_lt_Some in Hq.
      by rewrite length_pct_change, length_fmap in Hq. }
    apply lookup_lt_is_Some_2 in Hlen. destruct Hlen as [r Hr].
    by rewrite Hr.
  - by destruct (data !! i).
Qed.

End Frames.

Section FactorRatio.
Import Float Pandas.

(** The ratio of a record that has a predecessor. *)
Lemma factor_ratio_lookup_S (data : list TrendRow) (i : nat)
    (prev r : AnnotatedRecord) :
  calculate_factor_metrics data !! i = Some prev ->
  calculate_factor_metrics data !! S i = Some r ->
  pct_change (Factor <$> calculate_factor_metrics data) !! S i
    = Some (sub (div (Factor r) (Factor prev)) one)
  /\ Factor_Ratio r = ratio_after (Factor prev) (Factor r).
Proof.
  intros Hprev Hr.
  assert (Hpct : pct_change (Factor <$> calculate_factor_metrics data) !! S i
                 = Some (sub (div (Factor r) (Factor prev)) one)).
  { apply pct_change_lookup_S; rewrite list_lookup_fmap.
    - by rewrite Hprev.
    - by rewrite Hr. }
  split; [exact Hpct|].
  pose proof (calculate_factor_metrics_ratio data) as Hcol.
  apply (f_equal (fun l => l !! S i)) in Hcol.
  unfold fillna in Hcol.
  rewrite !list_lookup_fmap, Hr, Hpct in Hcol. simpl in Hcol.
  by injection Hcol.
Qed.

(** The ratio of the first record. *)
Lemma factor_ratio_lookup_0 (data : list TrendRow) (r : AnnotatedRecord) :
  calculate_factor_metrics data !! 0%nat = Some r -> Factor_Ratio r = one.
Proof.
  intros Hr.
  pose proof (calculate_factor_metrics_ratio data) as Hcol.
  apply (f_equal (fun l => l !! 0%nat)) in Hcol.
  unfold fillna in Hcol. rewrite !list_lookup_fmap, Hr in Hcol.
  destruct (calculate_factor_metrics data) as [|r0 recs] eqn:Hrecs; [done|].
  rewrite fmap_cons, pct_change_lookup_0 in Hcol. simpl in Hcol.
  by injection Hcol.
Qed.

Lemma factor_lookup (data : list TrendRow) (i : nat) (r : AnnotatedRecord) :
  calculate_factor_metrics data !! i = Some r ->
  Factor r = mul (price r) (volume r).
Proof.
  intros Hr.
  pose proof (calculate_factor_metrics_factor data) as Hcol.
  pose proof (calculate_factor_metrics_rows data) as Hrows.
  apply (f_equal (fun l => l !! i)) in Hcol.
  apply (f_equal (fun l => l !! i)) in Hrows.
  rewrite !list_lookup_fmap, Hr in Hcol.
  rewrite list_lookup_fmap, Hr in Hrows. simpl in Hcol, Hrows.
  rewrite <- Hrows in Hcol. simpl in Hcol. by injection Hcol.
Qed.

(** The ratios of [ratio_after], case by case. *)
Lemma ratio_after_not_nan (prev cur : float) :
  isnan (ratio_after prev cur) = false.
Proof.
  unfold ratio_after.
  by destruct (isnan (add (sub (div cur prev) one) one)) eqn:E.
Qed.


Lemma ratio_after_self (x : float) : ratio_after x x = one.
Proof.
  unfold ratio_after. destruct x as [s|s| |s m e]; try done.
  by rewrite float_div_self.
Qed.

Lemma ratio_after_finite (prev cur : float) :
  isfinite prev = true -> iszero prev = false -> isnan cur = false ->
  ratio_after prev cur = add (sub (div cur prev) one) one.
Proof.
  destruct prev as [sp|sp| |sp mp ep]; try done. intros _ _ Hcur.
  unfold ratio_after.
  by rewrite add_one_not_nan
    by (by apply sub_one_not_nan, div_not_nan).
Qed.

End FactorRatio.

(** ** The pipeline *)

Section Pipeline.
Import Float Pandas.

Lemma analyze_ok (data : list Sample) (w : Z) :
  1 <= w ->
  exists rows : list SmoothedRow,
    calculate_moving_averages data w = Ok rows
    /\ sample <$> rows = data
    /\ analyze data w = Ok (calculate_factor_metrics (analyze_trends rows)).
Proof.
  intros Hw.
  destruct (calculate_moving_averages_ok data w Hw)
    as (rows & Hrows & Hsample & _).
  exists rows. split_and!; [done..|].
  unfold analyze. by rewrite Hrows.
Qed.

Lemma analyze_raises (data : list Sample) (w : Z) :
  w < 1 -> analyze data w = Raise ValueError.
Proof.
  intros Hw. unfold analyze.
  by rewrite calculate_moving_averages_raises.
Qed.

Lemma analyze_samples (rows : list SmoothedRow) :
  (fun r : AnnotatedRecord => (r : Sample))
    <$> calculate_factor_metrics (analyze_trends rows)
  = sample <$> rows.
Proof.
  rewrite <- (analyze_trends_rows rows) at 2.
  rewrite <- (calculate_factor_metrics_rows (analyze_trends rows)) at 2.
  by rewrite <- !list_fmap_compose.
Qed.

(** The records of the pipeline: one per sample, in order. *)
Lemma analyze_records (data : list Sample) (w : Z) :
  1 <= w ->
  exists (rows : list SmoothedRow) (recs : list AnnotatedRecord),
    recs = calculate_factor_metrics (analyze_trends rows)
    /\ analyze data w = Ok recs
    /\ length recs = length data
    /\ (fun r : AnnotatedRecord => (r : Sample)) <$> recs = data.
Proof.
  intros Hw.
  destruct (analyze_ok data w Hw) as (rows & _ & Hsample & Hrecs).
  exists rows, (calculate_factor_metrics (analyze_trends rows)).
  assert (Hsamples :
    (fun r : AnnotatedRecord => (r : Sample))
      <$> calculate_factor_metrics (analyze_trends rows) = data).
  { by rewrite analyze_samples. }
  split_and!; [done..| |done].
  rewrite <- Hsamples. by rewrite length_fmap.
Qed.

(** Every field of every record, from the samples. *)
Lemma analyze_lookup (data : list Sample) (w : Z) :
  1 <= w ->
  exists recs : list AnnotatedRecord,
    analyze data w = Ok recs
    /\ length recs = length data
    /\ (forall (i : nat) (r : AnnotatedRecord),
          recs !! i = Some r ->
          data !! i = Some (r : Sample)
          /\ roll_mean (price <$> data) (Z.to_nat w) 1 !! i
             = Some (Price_MA r)
          /\ roll_mean (volume <$> data) (Z.to_nat w) 1 !! i
             = Some (Volume_MA r)
          /\ trends r = trends_of r
          /\ Factor r = mul (price r) (volume r)
          /\ Factor_Ratio r =
               match i with
               | O => one
               | S j =>
                   match recs !! j with
                   | Some prev => ratio_after (Factor prev) (Factor r)
                   | None => one
                   end
               end).
Proof.
  intros Hw.
  destruct (calculate_moving_averages_ok data w Hw)
    as (rows & Hrows & Hsample & Hp & Hv & _).
  exists (calculate_factor_metrics (analyze_trends rows)).
  split; [unfold analyze; by rewrite Hrows|]. split.
  { by rewrite calculate_factor_metrics_length, analyze_trends_length,
      <- Hsample, length_fmap. }
  intros i r Hr.
  pose proof (calculate_factor_metrics_rows (analyze_trends rows)) as Htr.
  apply (f_equal (fun l => l !! i)) in Htr.
  rewrite list_lookup_fmap, Hr in Htr. simpl in Htr.
  rewrite analyze_trends_fmap, list_lookup_fmap in Htr.
  destruct (rows !! i) as [row|] eqn:Hrow; [|done].
  simpl in Htr. injection Htr as Htr.
  rewrite Htr. simpl. split_and!; try done.
  - rewrite <- Hsample, list_lookup_fmap, Hrow. done.
  - rewrite <- Hp, list_lookup_fmap, Hrow. done.
  - rewrite <- Hv, list_lookup_fmap, Hrow. done.
  - pose proof (factor_lookup _ i r Hr) as Hf. by rewrite Htr in Hf.
  - destruct i as [|j].
    + by apply (factor_ratio_lookup_0 (analyze_trends rows)).
    + destruct (calculate_factor_metrics (analyze_trends rows) !! j)
        as [prev|] eqn:Hprev.
      * by destruct (factor_ratio_lookup_S _ j prev r Hprev Hr) as [_ ->].
      * apply lookup_ge_None in Hprev. apply lookup_lt_Some in Hr. lia.
Qed.

Lemma factor_not_nan (data : list Sample) (w : Z)
    (recs : list AnnotatedRecord) (r : AnnotatedRecord) :
  1 <= w -> analyze data w = Ok recs -> r ∈ recs -> isnan (Factor r) = false.
Proof.
  intros Hw Hrecs [i Hr]%list_elem_of_lookup.
  destruct (analyze_lookup data w Hw) as (recs' & Hrecs' & _ & Hfields).
  rewrite Hrecs in Hrecs'. injection Hrecs' as <-.
  destruct (Hfields i r Hr) as (_ & _ & _ & _ & -> & _).
  apply mul_not_nan; apply double_finite.
Qed.

End Pipeline.

(** ** Behavior mapper *)

(** C4: for each of the nine pairs of valid trend labels,
    [get_market_behavior] returns the label of the table of section 4.3,
    and that label is never "Unknown". *)
Theorem get_market_behavior_table (price_trend volume_trend : Trend) :
  get_market_behavior (trend_label price_trend) (trend_label volume_trend)
    = behavior_table price_trend volume_trend
  /\ get_market_behavior (trend_label price_trend) (trend_label volume_trend)
    <> "Unknown".
Proof.
  destruct price_trend, volume_trend; split; vm_compute; congruence.
Qed.

(** ** Trend classifier *)

(** C3, as the script computes it: for a current value [v], a moving
    average [m] and a threshold [t > 0], with [ratio] the binary64 value of
    [(v - m) / m], the classifier returns Increase exactly when
    [ratio > t], Decrease exactly when [ratio < -t] and Stable otherwise;
    when the computed ratio is [t] itself it returns Stable. *)
Theorem classify_trend_spec (v m t : float) :
  Float.ltb Float.zero t = true ->
  let ratio := Float.div (Float.sub v m) m in
  let trend := classify_trend v m t in
  (trend = "Increase" <-> Float.gtb ratio t = true)
  /\ (trend = "Decrease" <-> Float.ltb ratio (Float.neg t) = true)
  /\ (trend = "Stable"
      <-> Float.gtb ratio t = false /\ Float.ltb ratio (Float.neg t) = false)
  /\ (ratio = t -> trend = "Stable").
Proof.
  intros Ht ratio trend.
  assert (Hexcl : Float.gtb ratio t = true ->
                  Float.ltb ratio (Float.neg t) = true -> False).
  { by apply thresholds_exclusive. }
  assert (Hself : ratio = t ->
            Float.gtb ratio t = false /\ Float.ltb ratio (Float.neg t) = false).
  { intros ->. split; [apply float_ltb_irrefl|].
    apply positive_threshold in Ht as [(mt & et & ->)| ->]; done. }
  subst trend. unfold classify_trend. fold ratio.
  clearbody ratio.
  destruct (Float.gtb ratio t) eqn:Hup,
           (Float.ltb ratio (Float.neg t)) eqn:Hdown;
    split_and!; try split; try done; try tauto;
    try (by intros []); try (by intros [? ?]%Hself).
Qed.

(** C3 fails as stated: the value [255.91 * (1 + 0.001)], as binary64
    computes it, is classified Increase against the average 255.91, since
    the computed ratio is one unit in the last place above the threshold;
    and for the value 8007999999999999 and the average 7999999999999999 the
    exact ratio is above the threshold while the computed ratio is the
    threshold itself, so that the classifier returns Stable. *)
Lemma classify_trend_boundary_not_stable :
  (let m := price_255_91 in
   let t := default_threshold in
   let v := boundary_of m t in
   Float.isfinite v = true
   /\ Float.iszero m = false
   /\ Float.ltb Float.zero t = true
   /\ classify_trend v m t = "Increase")
  /\ (let v := Float.of_Z 8007999999999999 in
      let m := Float.of_Z 7999999999999999 in
      exists qv qm qt : Q,
        Float.to_Q v = Some qv
        /\ Float.to_Q m = Some qm
        /\ Float.to_Q default_threshold = Some qt
        /\ (qt < (qv - qm) / qm)%Q
        /\ classify_trend v m default_threshold = "Stable").
Proof.
  split.
  - by vm_compute.
  - eexists _, _, _. split_and!; reflexivity.
Qed.

(** ** Moving-average engine *)



(** ** The records of the pipeline *)

(** C9: the annotated records are as many as the samples and in their
    order: record [i] carries sample [i], so its timestamp is the
    timestamp of sample [i]. *)
Theorem analyze_preserves_samples (data : list Sample) (w : Z) :
  1 <= w ->
  exists recs : list AnnotatedRecord,
    analyze data w = Ok recs
    /\ length recs = length data
    /\ (fun r : AnnotatedRecord => (r : Sample)) <$> recs = data
    /\ (forall i : nat,
          (fun r : AnnotatedRecord => Timestamp r) <$> recs !! i
          = Timestamp <$> data !! i).
Proof.
  intros Hw.
  destruct (analyze_records data w Hw)
    as (rows & recs & _ & Hrecs & Hlen & Hsamples).
  exists recs. split_and!; [done..|].
  intros i. rewrite <- Hsamples.
  rewrite list_lookup_fmap. by destruct (recs !! i).
Qed.

(** C6: for a non-empty sequence of samples, the factor ratio of the
    first annotated record is 1, whatever the price and the volume of the
    first sample. *)
Theorem first_factor_ratio (s : Sample) (data : list Sample) (w : Z) :
  1 <= w ->
  exists (r : AnnotatedRecord) (recs : list AnnotatedRecord),
    analyze (s :: data) w = Ok (r :: recs)
    /\ (r : Sample) = s
    /\ Factor_Ratio r = Float.one.
Proof.
  intros Hw.
  destruct (analyze_records (s :: data) w Hw)
    as (rows & recs & Hrun & Hrecs & Hlen & Hsamples).
  destruct recs as [|r recs]; [done|].
  exists r, recs. split_and!; [done | by injection Hsamples |].
  apply (factor_ratio_lookup_0 (analyze_trends rows)).
  by rewrite <- Hrun.
Qed.

(** C7, as the script computes it: the factor of every record is the
    binary64 product of its price and its volume, and the factor ratio of
    a record that has a predecessor is the percentage change plus one,
    [(factor[i] / factor[i-1] - 1) + 1], each operation rounded, with 1 in
    place of a NaN; after a finite factor other than zero nothing is
    replaced. *)
Theorem factor_and_ratio (data : list Sample) (w : Z) :
  1 <= w ->
  exists recs : list AnnotatedRecord,
    analyze data w = Ok recs
    /\ length recs = length data
    /\ (forall (i : nat) (r : AnnotatedRecord),
          recs !! i = Some r ->
          Factor r = Float.mul (price r) (volume r))
    /\ (forall (i : nat) (prev r : AnnotatedRecord),
          recs !! i = Some prev -> recs !! S i = Some r ->
          let q :=
            Float.add
              (Float.sub (Float.div (Factor r) (Factor prev)) Float.one)
              Float.one in
          Factor_Ratio r = (if Float.isnan q then Float.one else q)
          /\ (Float.isfinite (Factor prev) = true ->
              Float.iszero (Factor prev) = false ->
              Factor_Ratio r = q)).
Proof.
  intros Hw.
  destruct (analyze_lookup data w Hw) as (recs & Hrecs & Hlen & Hfields).
  exists recs. split_and!; [done..| |].
  - intros i r Hr. by destruct (Hfields i r Hr) as (_ & _ & _ & _ & Hf & _).
  - intros i prev r Hprev Hr q.
    destruct (Hfields (S i) r Hr) as (_ & _ & _ & _ & _ & Hq).
    rewrite Hprev in Hq. split; [exact Hq|].
    intros Hfin Hzero. rewrite Hq. apply ratio_after_finite; [done..|].
    apply (factor_not_nan data w recs); [done..|].
    by apply list_elem_of_lookup_2 in Hr.
Qed.

(** C7 fails as stated: when the factor falls from 1000 to 100 the factor
    ratio is the binary64 value of [(0.1 - 1) + 1], which is below the
    quotient 0.1. *)
Lemma factor_ratio_not_quotient :
  exists r0 r1 : AnnotatedRecord,
    analyze tenfold_drop 2 = Ok [r0; r1]
    /\ Factor r0 = Float.of_Z 1000
    /\ Factor r1 = Float.of_Z 100
    /\ Factor_Ratio r1 <> Float.div (Factor r1) (Factor r0)
    /\ Float.ltb (Factor_Ratio r1) (Float.div (Factor r1) (Factor r0)) = true.
Proof.
  eexists _, _. split; [vm_compute; reflexivity|].
  split_and!; by vm_compute.
Qed.

(** C10: when the factors of two consecutive records are both zero, the
    percentage change of the second is NaN (0/0) and the fill step, which
    replaces every NaN of the column, sets its factor ratio to 1: no error
    is raised. *)
Theorem zero_factors_ratio (data : list Sample) (w : Z) :
  1 <= w ->
  exists recs : list AnnotatedRecord,
    analyze data w = Ok recs
    /\ length recs = length data
    /\ (forall (i : nat) (prev r : AnnotatedRecord),
          recs !! i = Some prev -> recs !! S i = Some r ->
          Float.iszero (Factor prev) = true ->
          Float.iszero (Factor r) = true ->
          Pandas.pct_change (Factor <$> recs) !! S i = Some Float.nan
          /\ Factor_Ratio r = Float.one)
    /\ (forall (xs : list float) (i : nat),
          xs !! i = Some Float.nan ->
          Pandas.fillna Float.one xs !! i = Some Float.one).
Proof.
  intros Hw.
  destruct (analyze_records data w Hw)
    as (rows & recs & -> & Hrecs & Hlen & _).
  eexists. split_and!; [done..| |].
  - intros i prev r Hprev Hr Ha Hb.
    destruct (factor_ratio_lookup_S _ i prev r Hprev Hr) as [Hpct Hratio].
    rewrite Hratio, Hpct.
    destruct (Factor prev) as [sp|sp| |sp mp ep]; try done.
    destruct (Factor r) as [sr|sr| |sr mr er]; try done.
  - intros xs i Hx. unfold Pandas.fillna.
    by rewrite list_lookup_fmap, Hx.
Qed.

(** ** Insight summarizer: the dominant behavior *)

Section StringOrder.

Lemma ascii_compare_refl (a : Ascii.ascii) : Ascii.compare a a = Eq.
Proof. apply N.compare_refl. Qed.

Lemma ascii_compare_lt_trans (a b c : Ascii.ascii) :
  Ascii.compare a b = Lt -> Ascii.compare b c = Lt -> Ascii.compare a c = Lt.
Proof.
  unfold Ascii.compare. rewrite !N.compare_lt_iff. apply N.lt_trans.
Qed.

Lemma string_compare_cons_lt (a b : Ascii.ascii) (s1 s2 : string) :
  String.compare (String a s1) (String b s2) = Lt <->
  Ascii.compare a b = Lt \/ (a = b /\ String.compare s1 s2 = Lt).
Proof.
  simpl. destruct (Ascii.compare a b) eqn:Hab.
  - apply Ascii.compare_eq_iff in Hab. subst b.
    split; [by right | by intros [| []]].
  - split; [by left | done].
  - split; [done | intros [| [-> _]]; [done|]].
    by rewrite ascii_compare_refl in Hab.
Qed.

Lemma string_compare_lt_trans (s1 s2 s3 : string) :
  String.compare s1 s2 = Lt -> String.compare s2 s3 = Lt ->
  String.compare s1 s3 = Lt.
Proof.
  revert s2 s3. induction s1 as [|a s1 IH]; intros [|b s2] [|c s3];
    try done.
  rewrite !string_compare_cons_lt.
  intros [Hab|[-> H12]] [Hbc|[-> H23]].
  - left. by apply ascii_compare_lt_trans with b.
  - by left.
  - by left.
  - right. split; [done|]. by apply IH with s2.
Qed.

Lemma string_leb_lt_eq (s1 s2 : string) :
  String.leb s1 s2 = true <-> String.compare s1 s2 = Lt \/ s1 = s2.
Proof.
  unfold String.leb. destruct (String.compare s1 s2) eqn:Hc.
  - apply String.compare_eq_iff in Hc. by split; [right|].
  - by split; [left|].
  - split; [done|]. intros [| ->]; [done|].
    assert (String.compare s2 s2 = Eq) as Hrefl.
    { clear Hc. induction s2 as [|a s IH]; [done|].
      simpl. by rewrite ascii_compare_refl. }
    congruence.
Qed.

Lemma string_leb_refl (s : string) : String.leb s s = true.
Proof. apply string_leb_lt_eq. by right. Qed.

Lemma string_leb_trans (s1 s2 s3 : string) :
  String.leb s1 s2 = true -> String.leb s2 s3 = true ->
  String.leb s1 s3 = true.
Proof.
  rewrite !string_leb_lt_eq. intros [H12 | ->] [H23 | ->]; auto.
  left. by apply string_compare_lt_trans with s2.
Qed.

End StringOrder.

Section Mode.
Import Pandas.

Lemma elem_of_insert_sorted (x y : string) (l : list string) :
  y ∈ insert_sorted x l <-> y = x \/ y ∈ l.
Proof.
  induction l as [|z l IH]; simpl.
  - rewrite list_elem_of_singleton, elem_of_nil. tauto.
  - destruct (String.leb x z); rewrite !elem_of_cons; [tauto|].
    rewrite IH. tauto.
Qed.

Lemma elem_of_sort_values (y : string) (l : list string) :
  y ∈ sort_values l <-> y ∈ l.
Proof.
  induction l as [|x l IH]; simpl; [done|].
  rewrite elem_of_insert_sorted, IH, elem_of_cons. tauto.
Qed.

(** The first value of a sorted series is below all of them. *)
Lemma insert_sorted_head (x : string) (l : list string) :
  (forall h t, l = h :: t -> Forall (fun y => String.leb h y = true) l) ->
  forall h t, insert_sorted x l = h :: t -> Forall (fun y => String.leb h y = true) (insert_sorted x l).
Proof.
  intros Hl h t. destruct l as [|z l]; simpl.
  - intros [= <- <-]. constructor; [apply string_leb_refl | constructor].
  - specialize (Hl z l eq_refl).
    destruct (String.leb x z) eqn:Hxz.
    + intros [= <- <-]. constructor; [apply string_leb_refl|].
      eapply Forall_impl; [exact Hl|]. simpl. intros y Hy.
      by apply string_leb_trans with z.
    + intros [= <- <-].
      assert (Hzx : String.leb z x = true).
      { destruct (String.leb_total x z) as [H|H]; [congruence | done]. }
      apply Forall_forall. intros y Hy.
      apply elem_of_cons in Hy as [->|Hy]; [apply string_leb_refl|].
      apply elem_of_insert_sorted in Hy as [->|Hy]; [done|].
      rewrite Forall_forall in Hl. apply Hl. by right.
Qed.

Lemma sort_values_head (l : list string) (h : string) (t : list string) :
  sort_values l = h :: t -> Forall (fun y => String.leb h y = true) (sort_values l).
Proof.
  revert h t. induction l as [|x l IH]; [done|].
  simpl. apply insert_sorted_head. exact IH.
Qed.

Lemma occurrences_le_max_aux (xs l : list string) (x : string) :
  x ∈ l ->
  (occurrences x xs
     <= foldr (fun x acc => Nat.max (occurrences x xs) acc) 0 l)%nat.
Proof.
  induction l as [|y l IH]; [by intros ?%elem_of_nil|].
  intros [->|Hx]%elem_of_cons; simpl; [lia|].
  specialize (IH Hx). lia.
Qed.

Lemma max_attained_aux (xs l : list string) :
  l <> [] ->
  exists x, x ∈ l /\
    occurrences x xs
      = foldr (fun x acc => Nat.max (occurrences x xs) acc) 0%nat l.
Proof.
  induction l as [|y l IH]; [done|]. intros _. simpl.
  destruct l as [|z l].
  - exists y. split; [by left | simpl; lia].
  - destruct IH as (x & Hx & Hmax); [done|].
    set (m := foldr (fun x acc => Nat.max (occurrences x xs) acc) 0%nat
                (z :: l)) in *.
    destruct (Nat.le_ge_cases (occurrences y xs) m) as [Hle|Hge].
    + exists x. split; [by right | lia].
    + exists y. split; [by left | lia].
Qed.

Lemma occurrences_not_elem (x : string) (xs : list string) :
  x ∉ xs -> occurrences x xs = 0%nat.
Proof.
  intros Hx. unfold occurrences.
  induction xs as [|y xs IH]; [done|].
  rewrite not_elem_of_cons in Hx. destruct Hx as [Hne Hx].
  rewrite filter_cons_False by congruence. by apply IH.
Qed.

Lemma occurrences_elem (x : string) (xs : list string) :
  x ∈ xs -> (1 <= occurrences x xs)%nat.
Proof.
  intros Hx. unfold occurrences.
  induction xs as [|y xs IH]; [by apply elem_of_nil in Hx|].
  apply elem_of_cons in Hx as [->|Hx].
  - rewrite filter_cons_True by done. simpl. lia.
  - specialize (IH Hx). destruct (decide (y = x)) as [Heq|Hne].
    + rewrite filter_cons_True by done. simpl. lia.
    + by rewrite filter_cons_False by done.
Qed.

Lemma occurrences_le_max (x : string) (xs : list string) :
  (occurrences x xs <= max_occurrences xs)%nat.
Proof.
  destruct (decide (x ∈ xs)) as [Hx|Hx].
  - by apply occurrences_le_max_aux.
  - rewrite occurrences_not_elem by done. lia.
Qed.

Lemma elem_of_mode (x : string) (xs : list string) :
  x ∈ mode xs <-> x ∈ xs /\ occurrences x xs = max_occurrences xs.
Proof.
  unfold mode. rewrite elem_of_sort_values, list_elem_of_filter.
  rewrite elem_of_remove_dups. tauto.
Qed.

Lemma mode_nonempty (xs : list string) : xs <> [] -> mode xs <> [].
Proof.
  intros Hxs Hnil.
  destruct (max_attained_aux xs xs Hxs) as (x & Hx & Hmax).
  assert (Hin : x ∈ mode xs) by (by apply elem_of_mode).
  rewrite Hnil in Hin. by apply elem_of_nil in Hin.
Qed.

(** The first mode: a most frequent label, and the least of the most
    frequent labels in the order of strings. *)
Lemma first_mode (xs : list string) :
  xs <> [] ->
  exists b : string,
    iloc0 (mode xs) = Ok b
    /\ b ∈ xs
    /\ (forall x, occurrences x xs <= occurrences b xs)%nat
    /\ (forall x, occurrences x xs = occurrences b xs ->
                  String.leb b x = true).
Proof.
  intros Hxs. pose proof (mode_nonempty xs Hxs) as Hne.
  destruct (mode xs) as [|b t] eqn:Hmode; [done|].
  assert (Hb : b ∈ mode xs) by (rewrite Hmode; by left).
  apply elem_of_mode in Hb as [Hb Hmax].
  exists b. split_and!; [done..| |].
  - intros x. rewrite Hmax. apply occurrences_le_max.
  - intros x Hx.
    assert (Hxin : x ∈ mode xs).
    { apply elem_of_mode. split; [|congruence].
      destruct (decide (x ∈ xs)) as [|Hnot]; [done|].
      apply occurrences_not_elem in Hnot.
      apply occurrences_elem in Hb. lia. }
    pose proof (sort_values_head _ _ _ Hmode) as Hall.
    rewrite Forall_forall in Hall.
    apply Hall. unfold mode in Hxin. exact Hxin.
Qed.

End Mode.

Section Main.
Import Float Pandas.

Lemma main_not_fetched (w : Z) :
  main None w = Ok fetch_failed /\ main (Some []) w = Ok fetch_failed.
Proof. by split. Qed.

Lemma main_window_below_1 (s : Sample) (data : list Sample) (w : Z) :
  w < 1 -> main (Some (s :: data)) w = Raise ValueError.
Proof.
  intros Hw. unfold main. simpl. by rewrite analyze_raises.
Qed.

Lemma volume_column_casts (recs : list AnnotatedRecord) :
  forallb isfinite ((fun r : AnnotatedRecord => volume r) <$> recs) = true.
Proof.
  induction recs as [|r recs IH]; [done|].
  rewrite fmap_cons. simpl. rewrite IH. unfold volume.
  by rewrite double_finite.
Qed.

(** Rounding keeps a NaN and an infinity as they are. *)
Lemma rint_isfinite (x : float) : isfinite (rint x) = isfinite x.
Proof.
  destruct x as [s|s| |s m e]; try done.
  destruct e as [|p|p]; try done. simpl.
  destruct (round_nearest_even _ _); try done.
  by destruct (shl_align _ _ _).
Qed.

Lemma round_0_isfinite (xs : list float) :
  forallb isfinite (round_0 xs) = forallb isfinite xs.
Proof.
  unfold round_0. induction xs as [|x xs IH]; [done|].
  rewrite fmap_cons. cbn [forallb]. by rewrite rint_isfinite, IH.
Qed.

(** The conversions raise exactly on a frame that is not displayable. *)
Lemma display_data_result (recs : list AnnotatedRecord) :
  if displayable recs then exists cols, display_data recs = Ok cols
  else display_data recs = Raise IntCastingNaNError.
Proof.
  unfold displayable, display_data, astype_int.
  rewrite volume_column_casts, !round_0_isfinite. simpl.
  destruct (forallb isfinite
              ((fun r : AnnotatedRecord => Volume_MA r) <$> recs)); simpl;
    [|done].
  destruct (forallb isfinite (Factor <$> recs)); simpl; [|done].
  by eexists.
Qed.

Lemma main_analysed (s : Sample) (data : list Sample) (w : Z) :
  1 <= w ->
  exists (recs : list AnnotatedRecord) (dominant : string),
    analyze (s :: data) w = Ok recs
    /\ (fun r : AnnotatedRecord => (r : Sample)) <$> recs = s :: data
    /\ most_common_behavior recs = Ok dominant
    /\ main (Some (s :: data)) w
       = (if displayable recs then Ok (Analysis recs dominant)
          else Raise IntCastingNaNError).
Proof.
  intros Hw.
  destruct (analyze_records (s :: data) w Hw)
    as (rows & recs & _ & Hrecs & Hlen & Hsamples).
  assert (Hne : (fun r : AnnotatedRecord => Behavior r) <$> recs <> []).
  { destruct recs; [done|]. by rewrite fmap_cons. }
  destruct (first_mode _ Hne) as (b & Hb & _).
  exists recs, b. split_and!; [done..|].
  unfold main. simpl. rewrite Hrecs. simpl.
  pose proof (display_data_result recs) as Hshow.
  destruct (displayable recs).
  - destruct Hshow as [cols ->]. simpl.
    unfold most_common_behavior in *. by rewrite Hb.
  - by rewrite Hshow.
Qed.

End Main.

(** C2, as the script computes it: for a non-empty sequence of annotated
    records, the dominant behavior is a label with the highest number of
    occurrences, and among the labels tied for the highest number it is
    the first in the sorted order of strings. *)
Theorem dominant_behavior_sorted_first (data : list AnnotatedRecord) :
  data <> [] ->
  let labels := (fun r : AnnotatedRecord => Behavior r) <$> data in
  exists dominant : string,
    most_common_behavior data = Ok dominant
    /\ dominant ∈ labels
    /\ (forall x : string,
          (Pandas.occurrences x labels <= Pandas.occurrences dominant labels)%nat)
    /\ (forall x : string,
          Pandas.occurrences x labels = Pandas.occurrences dominant labels ->
          String.leb dominant x = true).
Proof.
  intros Hdata labels.
  assert (Hne : labels <> []).
  { subst labels. destruct data; [done|]. by rewrite fmap_cons. }
  destruct (first_mode labels Hne) as (b & Hb & Hin & Hmax & Hleast).
  by exists b.
Qed.

(** C2 fails as stated: on the first two samples of the scenario the
    labels are "Stable Market" then "Buying Pressure", once each, and the
    dominant behavior is "Buying Pressure", which is not the label that
    comes first in the records. *)
Lemma dominant_behavior_not_first_encountered :
  exists recs : list AnnotatedRecord,
    main (Some scenario_start) 2 = Ok (Analysis recs "Buying Pressure")
    /\ (fun r : AnnotatedRecord => Behavior r) <$> recs
       = ["Stable Market"; "Buying Pressure"].
Proof.
  eexists. split; [vm_compute; reflexivity | reflexivity].
Qed.

Lemma dominant_behavior_sorted_first_witness :
  exists dominant : string,
    most_common_behavior scenario_records = Ok dominant
    /\ String.leb dominant "Stable Market" = true.
Proof.
  destruct (dominant_behavior_sorted_first scenario_records)
    as (b & Hb & _ & _ & Hleast).
  - vm_compute. discriminate.
  - exists b. split; [exact Hb|].
    apply Hleast. vm_compute in Hb. injection Hb as <-.
    vm_compute. reflexivity.
Defined.

(** ** Zero denominators *)




(** ** Input checks *)

(** C8, as the script computes it: [main] rejects a missing or empty
    frame with its error message, before anything is computed, and a
    window below 1 is refused by the rolling mean, the first step.  Every
    other input is analysed: whatever the timestamps, the prices and the
    volumes, record [i] carries sample [i] unchanged, and [main] shows
    the records with their dominant behavior unless a moving average of
    the volume or a factor is not finite, which the conversion of the
    display table refuses.  The threshold is not an input of the
    pipeline, and the classifier returns a label for any threshold. *)
Theorem main_input_checks :
  (forall w : Z,
      main None w = Ok fetch_failed /\ main (Some []) w = Ok fetch_failed)
  /\ (forall (s : Sample) (data : list Sample) (w : Z),
        w < 1 -> main (Some (s :: data)) w = Raise ValueError)
  /\ (forall (s : Sample) (data : list Sample) (w : Z),
        1 <= w ->
        exists (recs : list AnnotatedRecord) (dominant : string),
          analyze (s :: data) w = Ok recs
          /\ (fun r : AnnotatedRecord => (r : Sample)) <$> recs = s :: data
          /\ most_common_behavior recs = Ok dominant
          /\ main (Some (s :: data)) w
             = (if displayable recs then Ok (Analysis recs dominant)
                else Raise IntCastingNaNError))
  /\ (forall v m t : float,
        classify_trend v m t = "Increase"
        \/ classify_trend v m t = "Decrease"
        \/ classify_trend v m t = "Stable").
Proof.
  split_and!.
  - apply main_not_fetched.
  - apply main_window_below_1.
  - apply main_analysed.
  - apply classify_trend_total.
Qed.

(** C8 fails as stated: samples whose timestamps go back and whose
    prices and volumes are negative are analysed like any others, and a
    negative threshold is accepted by the classifier. *)
Lemma invalid_input_is_analysed :
  exists recs : list AnnotatedRecord,
    main (Some disordered_negative) 3 = Ok (Analysis recs "Buying Pressure")
    /\ (fun r : AnnotatedRecord => (r : Sample)) <$> recs = disordered_negative
    /\ classify_trend Float.one Float.one (Float.of_Z (-1)) = "Increase".
Proof.
  eexists. split_and!; [vm_compute; reflexivity | reflexivity | reflexivity].
Qed.

Lemma main_input_checks_witness :
  main (Some scenario) 0 = Raise ValueError
  /\ exists (recs : list AnnotatedRecord) (dominant : string),
       main (Some scenario) 2 = Ok (Analysis recs dominant).
Proof.
  destruct main_input_checks as (_ & Hraise & Hrun & _).
  split.
  - apply Hraise. lia.
  - destruct (Hrun (mkSample 0 (whole 100 I) (whole 1000 I))
                (drop 1 scenario) 2) as (recs & b & Hrecs & _ & _ & Hmain);
      [lia|].
    exists recs, b. refine (eq_trans Hmain _).
    vm_compute in Hrecs. injection Hrecs as <-. reflexivity.
Defined.

(** ** The properties on the scenario of the specification *)

Lemma classify_trend_spec_witness :
  classify_trend (Float.of_Z 1001) (Float.of_Z 1000) default_threshold
  = "Stable".
Proof.
  destruct (classify_trend_spec (Float.of_Z 1001) (Float.of_Z 1000)
              default_threshold) as (_ & _ & _ & Hboundary).
  - reflexivity.
  - apply Hboundary. reflexivity.
Defined.


Lemma analyze_preserves_samples_witness :
  exists recs : list AnnotatedRecord,
    analyze scenario 2 = Ok recs /\ length recs = 3%nat.
Proof.
  destruct (analyze_preserves_samples scenario 2)
    as (recs & Hrecs & Hlen & _); [lia|].
  by exists recs.
Defined.

Lemma first_factor_ratio_witness :
  exists (r : AnnotatedRecord) (recs : list AnnotatedRecord),
    analyze scenario 2 = Ok (r :: recs) /\ Factor_Ratio r = Float.one.
Proof.
  destruct (first_factor_ratio
              (mkSample 0 (whole 100 I) (whole 1000 I))
              (drop 1 scenario) 2)
    as (r & recs & Hrecs & _ & Hratio); [lia|].
  by exists r, recs.
Defined.

Lemma factor_and_ratio_witness :
  exists recs : list AnnotatedRecord,
    analyze tenfold_drop 2 = Ok recs
    /\ forall r0 r1 : AnnotatedRecord,
         recs !! 0%nat = Some r0 -> recs !! 1%nat = Some r1 ->
         Factor_Ratio r1
         = Float.add
             (Float.sub (Float.div (Factor r1) (Factor r0)) Float.one)
             Float.one.
Proof.
  destruct (factor_and_ratio tenfold_drop 2)
    as (recs & Hrecs & _ & _ & Hratio); [lia|].
  exists recs. split; [exact Hrecs|].
  intros r0 r1 H0 H1.
  apply (Hratio 0%nat r0 r1 H0 H1).
  - vm_compute in Hrecs. injection Hrecs as <-.
    injection H0 as <-. reflexivity.
  - vm_compute in Hrecs. injection Hrecs as <-.
    injection H0 as <-. reflexivity.
Defined.

Lemma zero_factors_ratio_witness :
  exists recs : list AnnotatedRecord,
    analyze idle_twice 3 = Ok recs
    /\ (Factor_Ratio <$> recs) !! 1%nat = Some Float.one.
Proof.
  destruct (zero_factors_ratio idle_twice 3)
    as (recs & Hrecs & _ & Hzero & _); [lia|].
  exists recs. split; [exact Hrecs|].
  vm_compute in Hrecs. injection Hrecs as <-.
  match goal with
  | |- context [Factor_Ratio <$> (?r0 :: ?r1 :: _)] =>
      pose proof (Hzero 0%nat r0 r1 eq_refl eq_refl eq_refl eq_refl) as H
  end.
  exact (f_equal Some (proj2 H)).
Defined.

(** * Further properties of the script *)

(** ** Labels of the records *)

Section Labels.
Import Float Pandas.

Lemma classify_trend_label (v m t : float) :
  exists tr : Trend, classify_trend v m t = trend_label tr.
Proof.
  destruct (classify_trend_total v m t) as [H|[H|H]]; rewrite H.
  - by exists Increase.
  - by exists Decrease.
  - by exists Stable.
Qed.

Lemma behavior_of_labels (pt vt : Trend) :
  get_market_behavior (trend_label pt) (trend_label vt) = behavior_table pt vt.
Proof. by destruct pt, vt; vm_compute. Qed.

Lemma behavior_table_known (pt vt : Trend) :
  behavior_table pt vt ∈ all_behaviors /\ behavior_table pt vt <> "Unknown".
Proof.
  split; [|by destruct pt, vt].
  unfold all_behaviors. destruct pt, vt; simpl; rewrite !elem_of_cons; tauto.
Qed.

Lemma trends_of_same (row : SmoothedRow) :
  Price_MA row = price row -> Volume_MA row = volume row ->
  trends_of row
  = mkTrends "Stable" "Stable" "Price Stable & Volume Stable" "Stable Market".
Proof.
  intros Hp Hv. unfold trends_of. rewrite Hp, Hv. unfold price, volume.
  by rewrite !classify_trend_same by apply double_finite.
Qed.

End Labels.

(** X1: every record of the analysis carries two of the three trend
    labels, the combination text made of them, and the behavior the table
    gives for them: one of the nine behaviors, never "Unknown". *)
Theorem records_well_labelled (data : list Sample) (w : Z) :
  1 <= w ->
  exists recs : list AnnotatedRecord,
    analyze data w = Ok recs
    /\ forall r : AnnotatedRecord,
         r ∈ recs ->
         exists pt vt : Trend,
           Price_Trend r = trend_label pt
           /\ Volume_Trend r = trend_label vt
           /\ Combination r
              = "Price " ++ trend_label pt ++ " & Volume " ++ trend_label vt
           /\ Behavior r = behavior_table pt vt
           /\ Behavior r ∈ all_behaviors
           /\ Behavior r <> "Unknown".
Proof.
  intros Hw.
  destruct (analyze_lookup data w Hw) as (recs & Hrecs & _ & Hfields).
  exists recs. split; [done|].
  intros r [i Hr]%list_elem_of_lookup.
  destruct (Hfields i r Hr) as (_ & _ & _ & Htrends & _).
  destruct (classify_trend_label (price r) (Price_MA r) default_threshold)
    as [pt Hpt].
  destruct (classify_trend_label (volume r) (Volume_MA r) default_threshold)
    as [vt Hvt].
  exists pt, vt. rewrite Htrends. unfold trends_of. simpl.
  rewrite Hpt, Hvt, behavior_of_labels.
  destruct (behavior_table_known pt vt) as [Hin Hne].
  by split_and!.
Qed.

Lemma records_well_labelled_witness :
  exists recs : list AnnotatedRecord,
    analyze scenario 2 = Ok recs
    /\ forall r : AnnotatedRecord, r ∈ recs -> Behavior r <> "Unknown".
Proof.
  destruct (records_well_labelled scenario 2) as (recs & Hrecs & Hlab); [lia|].
  exists recs. split; [exact Hrecs|].
  intros r Hr. destruct (Hlab r Hr) as (pt & vt & _ & _ & _ & _ & _ & Hne).
  exact Hne.
Defined.

(** X2: the first record is always stable: its moving averages are
    the first price and the first volume themselves, so both trends are
    Stable and the behavior is "Stable Market", also when the price or the
    volume is zero. *)
Theorem first_record_stable (s : Sample) (data : list Sample) (w : Z) :
  1 <= w ->
  exists (r : AnnotatedRecord) (recs : list AnnotatedRecord),
    analyze (s :: data) w = Ok (r :: recs)
    /\ Price_MA r = price s
    /\ Volume_MA r = volume s
    /\ Price_Trend r = "Stable"
    /\ Volume_Trend r = "Stable"
    /\ Combination r = "Price Stable & Volume Stable"
    /\ Behavior r = "Stable Market".
Proof.
  intros Hw.
  destruct (analyze_lookup (s :: data) w Hw) as (recs & Hrecs & Hlen & Hfields).
  destruct recs as [|r recs]; [done|].
  exists r, recs. split; [done|].
  destruct (Hfields 0%nat r eq_refl) as (Hs & Hp & Hv & Htrends & _).
  injection Hs as Hs.
  rewrite (roll_mean_first _ _ (price s)) in Hp by (lia || done).
  rewrite (roll_mean_first _ _ (volume s)) in Hv by (lia || done).
  injection Hp as Hp. injection Hv as Hv.
  rewrite Htrends, (trends_of_same r).
  - by rewrite <- Hp, <- Hv.
  - by rewrite <- Hp, Hs.
  - by rewrite <- Hv, Hs.
Qed.

Lemma first_record_stable_witness :
  exists (r : AnnotatedRecord) (recs : list AnnotatedRecord),
    analyze idle_start 2 = Ok (r :: recs) /\ Behavior r = "Stable Market".
Proof.
  destruct (first_record_stable (mkSample 0 (whole 5 I) (whole 0 I))
              (drop 1 idle_start) 2)
    as (r & recs & Hrecs & _ & _ & _ & _ & _ & Hb); [lia|].
  by exists r, recs.
Defined.

(** X3: with a window of 1 every moving average is the value itself, so
    every record is "Stable Market" whatever the samples. *)
Theorem window_one_all_stable (data : list Sample) :
  exists recs : list AnnotatedRecord,
    analyze data 1 = Ok recs
    /\ length recs = length data
    /\ forall r : AnnotatedRecord,
         r ∈ recs ->
         Price_MA r = price r /\ Volume_MA r = volume r
         /\ Price_Trend r = "Stable" /\ Volume_Trend r = "Stable"
         /\ Behavior r = "Stable Market".
Proof.
  destruct (analyze_lookup data 1) as (recs & Hrecs & Hlen & Hfields); [lia|].
  exists recs. split_and!; [done..|].
  intros r [i Hr]%list_elem_of_lookup.
  destruct (Hfields i r Hr) as (Hs & Hp & Hv & Htrends & _).
  change (Z.to_nat 1) with 1%nat in Hp, Hv.
  rewrite roll_mean_window_1, list_lookup_fmap, Hs in Hp, Hv.
  injection Hp as Hp. injection Hv as Hv.
  rewrite Htrends, (trends_of_same r) by done. by rewrite <- Hp, <- Hv.
Qed.

(** X7: when all samples have the same price and the same volume, every
    record is "Stable Market" and every factor ratio is 1, also when that
    price or volume is zero, and when their product overflows. *)
Theorem constant_series_stable (data : list Sample) (w : Z) (p v : float) :
  1 <= w ->
  (forall s : Sample, s ∈ data -> price s = p /\ volume s = v) ->
  exists recs : list AnnotatedRecord,
    analyze data w = Ok recs
    /\ length recs = length data
    /\ forall r : AnnotatedRecord,
         r ∈ recs ->
         Price_MA r = p /\ Volume_MA r = v
         /\ Behavior r = "Stable Market"
         /\ Factor_Ratio r = Float.one.
Proof.
  intros Hw Hconst.
  destruct (analyze_lookup data w Hw) as (recs & Hrecs & Hlen & Hfields).
  exists recs. split_and!; [done..|].
  intros r [i Hr]%list_elem_of_lookup.
  destruct (Hfields i r Hr) as (Hs & Hp & Hv & Ht & Hf & Hq).
  destruct (Hconst r) as [HP HV]; [by apply list_elem_of_lookup_2 in Hs|].
  assert (Hpn : Float.isnan p = false).
  { rewrite <- HP. apply isfinite_not_nan, double_finite. }
  assert (Hvn : Float.isnan v = false).
  { rewrite <- HV. apply isfinite_not_nan, double_finite. }
  rewrite (roll_mean_constant _ p) in Hp; [| lia | done |].
  2:{ apply Forall_fmap, Forall_forall. intros s Hsin. by apply Hconst. }
  rewrite (roll_mean_constant _ v) in Hv; [| lia | done |].
  2:{ apply Forall_fmap, Forall_forall. intros s Hsin. by apply Hconst. }
  rewrite list_lookup_fmap, Hs in Hp, Hv.
  injection Hp as Hp. injection Hv as Hv.
  split_and!.
  - by rewrite <- Hp.
  - by rewrite <- Hv.
  - rewrite Ht, (trends_of_same r); [done | by rewrite <- Hp | by rewrite <- Hv].
  - rewrite Hq. destruct i as [|j]; [done|].
    destruct (recs !! j) as [prev|] eqn:Hprev; [|done].
    destruct (Hfields j prev Hprev) as (Hs' & _ & _ & _ & Hf' & _).
    destruct (Hconst prev) as [HP' HV'];
      [by apply list_elem_of_lookup_2 in Hs'|].
    rewrite Hf', Hf, HP, HV, HP', HV'. apply ratio_after_self.
Qed.

Lemma constant_series_stable_witness :
  exists recs : list AnnotatedRecord,
    analyze (replicate 3 (mkSample 0 (whole 7 I) (whole 0 I))) 2 = Ok recs
    /\ length recs = 3%nat.
Proof.
  destruct (constant_series_stable
              (replicate 3 (mkSample 0 (whole 7 I) (whole 0 I))) 2
              (Float.of_Z 7) (Float.of_Z 0))
    as (recs & Hrecs & Hlen & _).
  - lia.
  - intros s Hs. apply elem_of_replicate in Hs as [-> _]. by split.
  - by exists recs.
Defined.

(** X8: the factor ratio is never NaN, and a factor equal to the
    preceding one gives a ratio of exactly 1, whether that factor is a
    number, zero or an infinity left by an overflow. *)
Theorem factor_ratio_special_values (data : list Sample) (w : Z) :
  1 <= w ->
  exists recs : list AnnotatedRecord,
    analyze data w = Ok recs
    /\ (forall r : AnnotatedRecord,
          r ∈ recs -> Float.isnan (Factor_Ratio r) = false)
    /\ (forall (i : nat) (prev r : AnnotatedRecord),
          recs !! i = Some prev -> recs !! S i = Some r ->
          Factor r = Factor prev -> Factor_Ratio r = Float.one).
Proof.
  intros Hw.
  destruct (analyze_lookup data w Hw) as (recs & Hrecs & Hlen & Hfields).
  exists recs. split_and!; [done| |].
  - intros r [i Hr]%list_elem_of_lookup.
    destruct (Hfields i r Hr) as (_ & _ & _ & _ & _ & Hq).
    rewrite Hq. destruct i as [|j]; [done|].
    destruct (recs !! j); [apply ratio_after_not_nan | done].
  - intros i prev r Hprev Hr Hsame.
    destruct (Hfields (S i) r Hr) as (_ & _ & _ & _ & _ & Hq).
    rewrite Hprev in Hq. rewrite Hq, Hsame. apply ratio_after_self.
Qed.

Lemma factor_ratio_special_values_witness :
  exists recs : list AnnotatedRecord,
    analyze huge 2 = Ok recs
    /\ (Factor_Ratio <$> recs) !! 1%nat = Some Float.one.
Proof.
  destruct (factor_ratio_special_values huge 2)
    as (recs & Hrecs & _ & Hsame); [lia|].
  exists recs. split; [exact Hrecs|].
  vm_compute in Hrecs. injection Hrecs as <-.
  match goal with
  | |- context [Factor_Ratio <$> [?r0; ?r1]] =>
      pose proof (Hsame 0%nat r0 r1 eq_refl eq_refl eq_refl) as H
  end.
  exact (f_equal Some H).
Defined.

(** ** The window *)

Section Windows.
Import Float Pandas.

Lemma rolling_mean_wide (w w' : Z) (xs : list float) :
  1 <= w -> 1 <= w' ->
  Z.of_nat (length xs) <= w -> Z.of_nat (length xs) <= w' ->
  rolling_mean w xs = rolling_mean w' xs.
Proof.
  intros Hw Hw' Hlen Hlen'. rewrite !rolling_mean_ok by done. f_equal.
  apply roll_mean_ext; [done|].
  intros i Hi. rewrite length_prep_values in Hi.
  apply state_at_wide; lia.
Qed.

Lemma rolling_mean_take (w : Z) (n : nat) (xs ys : list float) :
  1 <= w -> rolling_mean w xs = Ok ys ->
  rolling_mean w (take n xs) = Ok (take n ys).
Proof.
  intros Hw. rewrite !rolling_mean_ok by done. intros [= <-].
  rewrite prep_values_take, roll_mean_take by lia. done.
Qed.

End Windows.

(** X9: a window at least as long as the series never slides, so that
    all such windows give the same analysis. *)
Theorem wide_window_running_mean (data : list Sample) (w w' : Z) :
  1 <= w -> 1 <= w' ->
  Z.of_nat (length data) <= w -> Z.of_nat (length data) <= w' ->
  exists recs : list AnnotatedRecord,
    analyze data w = Ok recs /\ analyze data w' = Ok recs.
Proof.
  intros Hw Hw' Hlen Hlen'.
  destruct (analyze_records data w Hw) as (rows & recs & _ & Hrecs & _).
  exists recs. split; [done|]. rewrite <- Hrecs.
  unfold analyze, calculate_moving_averages.
  rewrite (rolling_mean_wide w' w (price <$> data))
    by (done || by rewrite length_fmap).
  rewrite (rolling_mean_wide w' w (volume <$> data))
    by (done || by rewrite length_fmap).
  done.
Qed.

Lemma wide_window_running_mean_witness :
  exists recs : list AnnotatedRecord,
    analyze scenario 3 = Ok recs /\ analyze scenario 20 = Ok recs.
Proof. apply (wide_window_running_mean scenario 3 20); simpl; lia. Defined.

(** ** The records in closed form *)

Section ClosedForm.
Import Float Pandas.

Lemma record_ext (r r' : AnnotatedRecord) :
  (r : Sample) = (r' : Sample) ->
  Price_MA r = Price_MA r' -> Volume_MA r = Volume_MA r' ->
  trends r = trends r' ->
  Factor r = Factor r' -> Factor_Ratio r = Factor_Ratio r' ->
  r = r'.
Proof.
  destruct r as [[[s p v] t] f q], r' as [[[s' p' v'] t'] f' q'].
  simpl. by intros -> -> -> -> -> ->.
Qed.

Lemma analyze_closed_form (data : list Sample) (w : Z) :
  1 <= w -> analyze data w = Ok (imap (record_at w data) data).
Proof.
  intros Hw.
  destruct (analyze_lookup data w Hw) as (recs & Hrecs & Hlen & Hfields).
  rewrite Hrecs. f_equal. apply list_eq. intros i.
  rewrite list_lookup_imap.
  destruct (recs !! i) as [r|] eqn:Hr.
  - destruct (Hfields i r Hr) as (Hs & Hp & Hv & Ht & Hf & Hq).
    rewrite Hs. simpl. f_equal. apply record_ext; simpl; try done.
    + by rewrite Hp.
    + by rewrite Hv.
    + rewrite Ht. unfold trends_of. simpl. by rewrite Hp, Hv.
    + rewrite Hq. destruct i as [|j]; [done|].
      destruct (recs !! j) as [prev|] eqn:Hprev.
      * destruct (Hfields j prev Hprev) as (Hs' & _ & _ & _ & Hf' & _).
        by rewrite Hs', Hf', Hf.
      * apply lookup_ge_None in Hprev. rewrite Hlen in Hprev.
        apply lookup_ge_None in Hprev. by rewrite Hprev.
  - apply lookup_ge_None in Hr. rewrite Hlen in Hr.
    apply lookup_ge_None in Hr. by rewrite Hr.
Qed.

End ClosedForm.

(** X12: the analysis never looks ahead: the records of the first [n]
    samples alone are the first [n] records of the whole series. *)
Theorem analysis_is_causal (data : list Sample) (w : Z) (n : nat) :
  1 <= w ->
  exists recs : list AnnotatedRecord,
    analyze data w = Ok recs
    /\ analyze (take n data) w = Ok (take n recs).
Proof.
  intros Hw. eexists. split; [by apply analyze_closed_form|].
  rewrite analyze_closed_form by done. f_equal.
  apply list_eq. intros i.
  destruct (decide (i < n)%nat) as [Hi|Hi].
  - rewrite lookup_take_lt, !list_lookup_imap, lookup_take_lt by done.
    destruct (data !! i) as [s|] eqn:Hs; [|done]. simpl. f_equal.
    unfold record_at.
    rewrite !fmap_take, !roll_mean_take, !lookup_take_lt by lia.
    f_equal. destruct i as [|j]; [done|].
    rewrite lookup_take_lt by lia. done.
  - rewrite lookup_take_ge by lia.
    apply lookup_ge_None. rewrite length_imap, length_take. lia.
Qed.

Lemma analysis_is_causal_witness :
  exists recs : list AnnotatedRecord,
    analyze scenario 2 = Ok recs
    /\ analyze scenario_start 2 = Ok (take 2 recs).
Proof.
  destruct (analysis_is_causal scenario 2 2) as (recs & H1 & H2); [lia|].
  by exists recs.
Defined.

(** X13: the analysis never reads the timestamps: two series with the
    same prices and the same volumes get the same moving averages, trends,
    behaviors, factors and factor ratios, whatever their timestamps. *)
Theorem analysis_ignores_timestamps (data data' : list Sample) (w : Z) :
  1 <= w ->
  price <$> data = price <$> data' ->
  volume <$> data = volume <$> data' ->
  exists recs recs' : list AnnotatedRecord,
    analyze data w = Ok recs
    /\ analyze data' w = Ok recs'
    /\ derived <$> recs = derived <$> recs'.
Proof.
  intros Hw HP HV.
  eexists _, _. split; [by apply analyze_closed_form|].
  split; [by apply analyze_closed_form|].
  assert (Hat : forall k (s s' : Sample),
             data !! k = Some s -> data' !! k = Some s' ->
             price s = price s' /\ volume s = volume s').
  { intros k s s' Hs Hs'.
    apply (f_equal (fun l => l !! k)) in HP, HV.
    rewrite !list_lookup_fmap, Hs, Hs' in HP, HV. simpl in HP, HV.
    split; congruence. }
  assert (Hlen : length data = length data').
  { apply (f_equal length) in HP. by rewrite !length_fmap in HP. }
  apply list_eq. intros i.
  rewrite !list_lookup_fmap, !list_lookup_imap.
  destruct (data !! i) as [s|] eqn:Hs, (data' !! i) as [s'|] eqn:Hs'; simpl.
  - destruct (Hat i s s' Hs Hs') as [Ep Ev]. f_equal.
    unfold derived, record_at, trends_of. simpl.
    rewrite <- HP, <- HV, <- Ep, <- Ev.
    f_equal. destruct i as [|j]; [done|].
    destruct (data !! j) as [p|] eqn:Hp, (data' !! j) as [p'|] eqn:Hp'.
    + destruct (Hat j p p' Hp Hp') as [-> ->]. done.
    + apply lookup_lt_Some in Hp. apply lookup_ge_None in Hp'. lia.
    + apply lookup_lt_Some in Hp'. apply lookup_ge_None in Hp. lia.
    + done.
  - apply lookup_lt_Some in Hs. apply lookup_ge_None in Hs'. lia.
  - apply lookup_lt_Some in Hs'. apply lookup_ge_None in Hs. lia.
  - done.
Qed.

Lemma analysis_ignores_timestamps_witness :
  exists recs recs' : list AnnotatedRecord,
    analyze scenario 2 = Ok recs
    /\ analyze ((fun s => mkSample (- Timestamp s) (Price s) (Volume s))
                  <$> scenario) 2 = Ok recs'
    /\ derived <$> recs = derived <$> recs'.
Proof.
  apply (analysis_ignores_timestamps scenario
           ((fun s => mkSample (- Timestamp s) (Price s) (Volume s))
              <$> scenario) 2); [lia | reflexivity | reflexivity].
Defined.

(** ** Colors and charts *)

Section Charts.
Import Float Pandas.

(** The trends of a record, as members of the enumeration. *)
Lemma record_trends (data : list Sample) (w : Z) (recs : list AnnotatedRecord)
    (r : AnnotatedRecord) :
  1 <= w -> analyze data w = Ok recs -> r ∈ recs ->
  exists pt vt : Trend,
    Combination r
      = "Price " ++ trend_label pt ++ " & Volume " ++ trend_label vt
    /\ Behavior r = behavior_table pt vt.
Proof.
  intros Hw Hrecs [i Hr]%list_elem_of_lookup.
  destruct (analyze_lookup data w Hw) as (recs' & Hrecs' & _ & Hfields).
  rewrite Hrecs in Hrecs'. injection Hrecs' as <-.
  destruct (Hfields i r Hr) as (_ & _ & _ & Htrends & _).
  destruct (classify_trend_label (price r) (Price_MA r) default_threshold)
    as [pt Hpt].
  destruct (classify_trend_label (volume r) (Volume_MA r) default_threshold)
    as [vt Hvt].
  exists pt, vt. rewrite Htrends. unfold trends_of. simpl.
  by rewrite Hpt, Hvt, behavior_of_labels.
Qed.

Lemma behavior_table_inj (pt vt pt' vt' : Trend) :
  behavior_table pt vt = behavior_table pt' vt' -> pt = pt' /\ vt = vt'.
Proof. by destruct pt, vt, pt', vt'. Qed.

Lemma combination_inj (pt vt pt' vt' : Trend) :
  "Price " ++ trend_label pt ++ " & Volume " ++ trend_label vt
  = "Price " ++ trend_label pt' ++ " & Volume " ++ trend_label vt' ->
  pt = pt' /\ vt = vt'.
Proof. by destruct pt, vt, pt', vt'. Qed.

Lemma behavior_color_inj (pt vt pt' vt' : Trend) :
  behavior_color (behavior_table pt vt)
  = behavior_color (behavior_table pt' vt') ->
  pt = pt' /\ vt = vt'.
Proof. destruct pt, vt, pt', vt'; vm_compute; by intros. Qed.

Lemma behavior_color_present (pt vt : Trend) :
  is_Some (color_map !! behavior_table pt vt).
Proof. destruct pt, vt; vm_compute; eauto. Qed.

Lemma occurrences_cons (x y : string) (l : list string) :
  occurrences x (y :: l)
  = ((if decide (y = x) then 1 else 0) + occurrences x l)%nat.
Proof.
  unfold occurrences. destruct (decide (y = x)) as [E|E].
  - by rewrite filter_cons_True.
  - by rewrite filter_cons_False.
Qed.

(** Two labellings that agree on which records are alike count alike. *)
Lemma occurrences_fmap_iff {A} (f g : A -> string) (x : A) (l : list A) :
  (forall y, y ∈ l -> f y = f x <-> g y = g x) ->
  occurrences (f x) (f <$> l) = occurrences (g x) (g <$> l).
Proof.
  induction l as [|y l IH]; intros Hl; [done|].
  rewrite !fmap_cons, !occurrences_cons.
  rewrite IH by (intros z Hz; apply Hl; by right).
  destruct (Hl y) as [H1 H2]; [by left|].
  destruct (decide (f y = f x)), (decide (g y = g x)); tauto || done.
Qed.

End Charts.

(** X14: [get_trend_color] gives the three trends three different
    colors, so the color of a classified value tells its trend; any other
    text, "Unknown" included, gets the grey of Stable. *)
Theorem trend_colors :
  (forall t t' : Trend,
      get_trend_color (trend_label t) = get_trend_color (trend_label t') ->
      t = t')
  /\ (forall v m t : float,
        get_trend_color (classify_trend v m t) = "#888888"
        <-> classify_trend v m t = "Stable")
  /\ (forall s : string,
        s <> "Increase" -> s <> "Decrease" -> get_trend_color s = "#888888").
Proof.
  split_and!.
  - by intros [] [].
  - intros v m t.
    destruct (classify_trend_label v m t) as [[] ->]; by vm_compute.
  - intros s H1 H2. unfold get_trend_color.
    apply String.eqb_neq in H1, H2. by rewrite H1, H2.
Qed.

Lemma trend_colors_witness : get_trend_color "increase" = "#888888".
Proof.
  destruct trend_colors as (_ & _ & Hother).
  apply Hother; discriminate.
Defined.

(** X15: every behavior of a record of the analysis is a key of the
    color map of the behavior chart, so the grey default of the lookup is
    never taken, and two records get the same bar color only when they
    have the same behavior. *)
Theorem behavior_colors_of_records (data : list Sample) (w : Z) :
  1 <= w ->
  exists recs : list AnnotatedRecord,
    analyze data w = Ok recs
    /\ (forall r : AnnotatedRecord,
          r ∈ recs ->
          color_map !! Behavior r = Some (behavior_color (Behavior r)))
    /\ (forall r r' : AnnotatedRecord,
          r ∈ recs -> r' ∈ recs ->
          behavior_color (Behavior r) = behavior_color (Behavior r') ->
          Behavior r = Behavior r').
Proof.
  intros Hw.
  destruct (analyze_records data w Hw) as (rows & recs & _ & Hrecs & _).
  exists recs. split_and!; [done| |].
  - intros r Hr.
    destruct (record_trends data w recs r Hw Hrecs Hr) as (pt & vt & _ & ->).
    unfold behavior_color.
    by destruct (behavior_color_present pt vt) as [c ->].
  - intros r r' Hr Hr' Hcol.
    destruct (record_trends data w recs r Hw Hrecs Hr) as (pt & vt & _ & Hb).
    destruct (record_trends data w recs r' Hw Hrecs Hr')
      as (pt' & vt' & _ & Hb').
    rewrite Hb, Hb' in Hcol |- *.
    by destruct (behavior_color_inj _ _ _ _ Hcol) as [-> ->].
Qed.

Lemma behavior_colors_of_records_witness :
  exists recs : list AnnotatedRecord,
    analyze scenario 2 = Ok recs
    /\ forall r : AnnotatedRecord,
         r ∈ recs -> is_Some (color_map !! Behavior r).
Proof.
  destruct (behavior_colors_of_records scenario 2)
    as (recs & Hrecs & Hkey & _); [lia|].
  exists recs. split; [exact Hrecs|].
  intros r Hr. rewrite (Hkey r Hr). by eexists.
Defined.

(** X16: the combination chart and the behavior chart show the same
    counts: in the records of an analysis, the combination of a record
    occurs exactly as often as its behavior. *)
Theorem combination_and_behavior_counts (data : list Sample) (w : Z) :
  1 <= w ->
  exists recs : list AnnotatedRecord,
    analyze data w = Ok recs
    /\ forall r : AnnotatedRecord,
         r ∈ recs ->
         Pandas.occurrences (Combination r)
           ((fun r : AnnotatedRecord => Combination r) <$> recs)
         = Pandas.occurrences (Behavior r)
             ((fun r : AnnotatedRecord => Behavior r) <$> recs).
Proof.
  intros Hw.
  destruct (analyze_records data w Hw) as (rows & recs & _ & Hrecs & _).
  exists recs. split; [done|].
  intros r Hr.
  apply (occurrences_fmap_iff (fun r : AnnotatedRecord => Combination r)
           (fun r : AnnotatedRecord => Behavior r)).
  intros r' Hr'.
  destruct (record_trends data w recs r Hw Hrecs Hr) as (pt & vt & Hc & Hb).
  destruct (record_trends data w recs r' Hw Hrecs Hr')
    as (pt' & vt' & Hc' & Hb').
  rewrite Hc, Hb, Hc', Hb'. split; intros E.
  - by destruct (combination_inj _ _ _ _ E) as [-> ->].
  - by destruct (behavior_table_inj _ _ _ _ E) as [-> ->].
Qed.

Lemma combination_and_behavior_counts_witness :
  exists recs : list AnnotatedRecord,
    analyze scenario 2 = Ok recs
    /\ forall r : AnnotatedRecord,
         r ∈ recs ->
         Pandas.occurrences (Combination r)
           ((fun r : AnnotatedRecord => Combination r) <$> recs)
         = Pandas.occurrences (Behavior r)
             ((fun r : AnnotatedRecord => Behavior r) <$> recs).
Proof. apply (combination_and_behavior_counts scenario 2). lia. Defined.

(** ** The sign of a moving average *)

Section RollingInvariant.
Import Float Pandas.

(** A property of the state that the three updates of the rolling mean
    keep, on a series whose values all satisfy [V]. *)
Variable V : float -> Prop.
Variable Inv : mean_state -> Prop.
Hypothesis setup_Inv :
  forall first : float, first = nan \/ V first -> Inv (setup first).
Hypothesis add_Inv :
  forall (st : mean_state) (x : float), V x -> Inv st -> Inv (add_mean st x).
Hypothesis remove_Inv :
  forall (st : mean_state) (x : float),
    V x -> Inv st -> Inv (remove_mean st x).

Lemma fold_add_mean_Inv (l : list float) (st : mean_state) :
  Forall V l -> Inv st -> Inv (fold_left add_mean l st).
Proof.
  intros Hl. revert st.
  induction Hl as [|x l Hx _ IH]; intros st Hst; [done|].
  simpl. by apply IH, add_Inv.
Qed.

Lemma fold_remove_mean_Inv (l : list float) (st : mean_state) :
  Forall V l -> Inv st -> Inv (fold_left remove_mean l st).
Proof.
  intros Hl. revert st.
  induction Hl as [|x l Hx _ IH]; intros st Hst; [done|].
  simpl. by apply IH, remove_Inv.
Qed.

Lemma roll_step_Inv (values : list float) (w : nat) (st : mean_state)
    (i : nat) :
  Forall V values -> Inv st -> Inv (roll_step values w st i).
Proof.
  intros Hall Hst. unfold roll_step. cbv zeta. case_bool_decide.
  - apply fold_add_mean_Inv; [by apply slice_Forall|].
    apply setup_Inv.
    destruct (values !! window_start w i) as [x|] eqn:Hx; simpl.
    + right. by apply (Forall_lookup_1 _ _ _ _ Hall Hx).
    + by left.
  - apply fold_add_mean_Inv; [by apply slice_Forall|].
    apply fold_remove_mean_Inv; [by apply slice_Forall|done].
Qed.

Lemma state_at_Inv (values : list float) (w i : nat) :
  Forall V values -> Inv (state_at values w i).
Proof.
  intros Hall. induction i as [|i IH].
  - rewrite state_at_0. apply roll_step_Inv; [done|].
    apply setup_Inv. by left.
  - rewrite state_at_S. by apply roll_step_Inv.
Qed.

End RollingInvariant.

Section RollingSign.
Import Float Pandas.

Lemma ltb_zero_unsigned (x : float) : signbit x = false -> ltb x zero = false.
Proof. destruct x as [s|s| |s m e]; simpl; try done; by intros ->. Qed.

Lemma gtb_zero_signed (x : float) : signbit x = true -> gtb x zero = false.
Proof. destruct x as [s|s| |s m e]; simpl; try done; by intros ->. Qed.

(** The mean of a window that holds no negative value is not negative:
    [calc_mean] replaces a negative quotient by zero. *)
Lemma calc_mean_not_negative (minp : Z) (st : mean_state) :
  neg_ct st = 0 -> ltb (prev_value st) zero = false ->
  ltb (calc_mean minp st) zero = false.
Proof.
  intros Hneg Hprev. unfold calc_mean. rewrite Hneg. cbv zeta.
  destruct ((minp <=? nobs st)%Z && (0 <? nobs st)%Z); [|done].
  destruct (num_consecutive_same_value st >=? nobs st)%Z; [done|].
  change (0 =? 0)%Z with true. cbn [andb].
  destruct (ltb (div (sum_x st) (of_Z (nobs st))) zero) eqn:Hlt; [done|].
  by destruct ((0 =? nobs st)%Z && gtb (div (sum_x st) (of_Z (nobs st))) zero).
Qed.

(** The mean of a window of negative values is not positive. *)
Lemma calc_mean_not_positive (minp : Z) (st : mean_state) :
  neg_ct st = nobs st -> gtb (prev_value st) zero = false ->
  gtb (calc_mean minp st) zero = false.
Proof.
  intros Hneg Hprev. unfold calc_mean. rewrite Hneg. cbv zeta.
  destruct ((minp <=? nobs st)%Z && (0 <? nobs st)%Z); [|done].
  destruct (num_consecutive_same_value st >=? nobs st)%Z; [done|].
  rewrite Z.eqb_refl. cbn [andb].
  destruct ((nobs st =? 0)%Z && ltb (div (sum_x st) (of_Z (nobs st))) zero);
    [done|].
  by destruct (gtb (div (sum_x st) (of_Z (nobs st))) zero) eqn:Hgt.
Qed.

Lemma roll_mean_not_negative (values : list float) (w : nat) (minp : Z) :
  Forall (fun x => signbit x = false) values ->
  Forall (fun y => ltb y zero = false) (roll_mean values w minp).
Proof.
  intros Hall. apply Forall_lookup. intros i y Hy.
  pose proof (lookup_lt_Some _ _ _ Hy) as Hi.
  rewrite length_roll_mean in Hi.
  rewrite roll_mean_lookup in Hy by done. injection Hy as <-.
  pose proof (state_at_Inv (fun x => signbit x = false)
                (fun st => neg_ct st = 0 /\ ltb (prev_value st) zero = false))
    as Hinv.
  destruct (Hinv) with (values := values) (w := w) (i := i)
    as [Hneg Hprev]; [| | |done|by apply calc_mean_not_negative].
  - intros first [->|Hfirst]; [done|]. split; [done|].
    by apply ltb_zero_unsigned.
  - intros st x Hx [Hneg Hprev]. unfold add_mean.
    destruct (eqb x x); [|done]. simpl. rewrite Hx. split; [done|].
    by apply ltb_zero_unsigned.
  - intros st x Hx [Hneg Hprev]. unfold remove_mean.
    destruct (eqb x x); [|done]. simpl. by rewrite Hx.
Qed.

Lemma roll_mean_not_positive (values : list float) (w : nat) (minp : Z) :
  Forall (fun x => signbit x = true) values ->
  Forall (fun y => gtb y zero = false) (roll_mean values w minp).
Proof.
  intros Hall. apply Forall_lookup. intros i y Hy.
  pose proof (lookup_lt_Some _ _ _ Hy) as Hi.
  rewrite length_roll_mean in Hi.
  rewrite roll_mean_lookup in Hy by done. injection Hy as <-.
  pose proof (state_at_Inv (fun x => signbit x = true)
                (fun st => neg_ct st = nobs st
                           /\ gtb (prev_value st) zero = false))
    as Hinv.
  destruct (Hinv) with (values := values) (w := w) (i := i)
    as [Hneg Hprev]; [| | |done|by apply calc_mean_not_positive].
  - intros first [->|Hfirst]; [done|]. split; [done|].
    by apply gtb_zero_signed.
  - intros st x Hx [Hneg Hprev]. unfold add_mean.
    destruct (eqb x x); [|done]. simpl. rewrite Hx. split; [lia|].
    by apply gtb_zero_signed.
  - intros st x Hx [Hneg Hprev]. unfold remove_mean.
    destruct (eqb x x); [|done]. simpl. rewrite Hx. split; [lia|done].
Qed.

End RollingSign.

(** X5: a moving average never takes the sign that no value of the series
    has.  When no price has its sign bit set, no price moving average is
    below zero, and when every price has it set, none is above zero; the
    same holds of the volumes and their moving averages. *)
Theorem moving_averages_keep_sign (data : list Sample) (w : Z) :
  1 <= w ->
  exists recs : list AnnotatedRecord,
    analyze data w = Ok recs
    /\ (Forall (fun s => Float.signbit (price s) = false) data ->
        Forall (fun r : AnnotatedRecord =>
                  Float.ltb (Price_MA r) Float.zero = false) recs)
    /\ (Forall (fun s => Float.signbit (price s) = true) data ->
        Forall (fun r : AnnotatedRecord =>
                  Float.gtb (Price_MA r) Float.zero = false) recs)
    /\ (Forall (fun s => Float.signbit (volume s) = false) data ->
        Forall (fun r : AnnotatedRecord =>
                  Float.ltb (Volume_MA r) Float.zero = false) recs)
    /\ (Forall (fun s => Float.signbit (volume s) = true) data ->
        Forall (fun r : AnnotatedRecord =>
                  Float.gtb (Volume_MA r) Float.zero = false) recs).
Proof.
  intros Hw.
  destruct (analyze_lookup data w Hw) as (recs & Hrecs & _ & Hfields).
  exists recs. split; [done|].
  split_and!; intros Hall; apply Forall_lookup; intros i r Hr;
    destruct (Hfields i r Hr) as (_ & Hp & Hv & _).
  - eapply (Forall_lookup_1 _ _ _ _ (roll_mean_not_negative _ _ _ _) Hp).
  - eapply (Forall_lookup_1 _ _ _ _ (roll_mean_not_positive _ _ _ _) Hp).
  - eapply (Forall_lookup_1 _ _ _ _ (roll_mean_not_negative _ _ _ _) Hv).
  - eapply (Forall_lookup_1 _ _ _ _ (roll_mean_not_positive _ _ _ _) Hv).
  Unshelve.
  all: by apply Forall_fmap.
Qed.

Lemma moving_averages_keep_sign_witness :
  exists recs : list AnnotatedRecord,
    analyze disordered_negative 2 = Ok recs
    /\ Forall (fun r : AnnotatedRecord =>
                 Float.gtb (Price_MA r) Float.zero = false) recs.
Proof.
  destruct (moving_averages_keep_sign disordered_negative 2)
    as (recs & Hrecs & _ & Hneg & _); [lia|].
  exists recs. split; [done|]. apply Hneg.
  repeat constructor.
Defined.

(** ** Values that rounding leaves as they are *)

Section Representable.
Import Float.

(** A mantissa and an exponent that binary64 can hold are kept by the
    rounding. *)
Lemma binary_round_aux_canonical (s : bool) (m : positive) (e : Z) :
  bounded prec emax m e = true ->
  binary_round_aux prec emax s (Zpos m) e loc_Exact = S754_finite s m e.
Proof.
  unfold bounded, canonical_mantissa. intros [Hc He]%andb_prop.
  apply Z.eqb_eq in Hc.
  unfold binary_round_aux, shr_fexp. simpl Zdigits2.
  rewrite Hc, Z.sub_diag. simpl. rewrite Hc, Z.sub_diag. simpl.
  by rewrite He.
Qed.

Lemma div_eucl_shiftl_52 (m : positive) :
  Z.div_eucl (Z.shiftl (Zpos m) 52) 4503599627370496 = (Zpos m, 0).
Proof.
  rewrite Z.shiftl_mul_pow2 by done.
  pose proof (Z_div_mod (Zpos m * 2 ^ 52) 4503599627370496 eq_refl) as H.
  destruct (Z.div_eucl (Zpos m * 2 ^ 52) 4503599627370496) as [q r].
  change (2 ^ 52) with 4503599627370496 in *.
  destruct H as [H1 H2]. f_equal; lia.
Qed.

Lemma div_eucl_shiftl_53 (m : positive) :
  Z.div_eucl (Z.shiftl (Zpos m) 53) 4503599627370496 = (Zpos m~0, 0).
Proof.
  rewrite Z.shiftl_mul_pow2 by done.
  pose proof (Z_div_mod (Zpos m * 2 ^ 53) 4503599627370496 eq_refl) as H.
  destruct (Z.div_eucl (Zpos m * 2 ^ 53) 4503599627370496) as [q r].
  change (2 ^ 53) with 9007199254740992 in *.
  destruct H as [H1 H2]. f_equal; lia.
Qed.

(** [x / 1] is [x]. *)
Lemma div_one (x : float) :
  isfinite x = true -> valid x = true -> div x one = x.
Proof.
  destruct x as [s|s| |s m e]; try done; intros _ Hv.
  - by destruct s.
  - unfold valid, valid_binary in Hv. pose proof Hv as Hb.
    unfold bounded, canonical_mantissa in Hv.
    apply andb_prop in Hv as [Hc He].
    apply Z.eqb_eq in Hc. apply Z.leb_le in He.
    unfold fexp, SpecFloat.emin, prec, emax in Hc.
    unfold div, one, SFdiv, SFdiv_core_binary.
    change (Zdigits2 4503599627370496) with 53.
    simpl Zdigits2. rewrite xorb_false_r.
    unfold fexp, SpecFloat.emin, prec, emax.
    destruct (decide (e = -1074)) as [->|Hne].
    + replace (Z.min (Z.max (Zpos (digits2_pos m) + -1074 - (53 + -52) - 53)
                            (3 - 1024 - 53))
                     (-1074 - -52))
        with (-1074) by lia.
      change (-1074 - -52 - -1074) with 52. cbv iota beta zeta.
      rewrite div_eucl_shiftl_52, new_location_0.
      by apply binary_round_aux_canonical.
    + replace (Z.min (Z.max (Zpos (digits2_pos m) + e - (53 + -52) - 53)
                            (3 - 1024 - 53))
                     (e - -52))
        with (e - 1) by lia.
      replace (e - -52 - (e - 1)) with 53 by lia. cbv iota beta zeta.
      rewrite div_eucl_shiftl_53, new_location_0.
      assert (Hd : Zpos (digits2_pos m) = 53) by lia.
      unfold binary_round_aux at 1. unfold shr_fexp at 1.
      simpl Zdigits2.
      replace (fexp 53 1024 (Zpos (Pos.succ (digits2_pos m)) + (e - 1))
               - (e - 1)) with 1
        by (unfold fexp, SpecFloat.emin; lia).
      simpl. replace (e - 1 + 1) with e by lia.
      unfold shr_fexp. simpl Zdigits2.
      replace (fexp 53 1024 (Zpos (digits2_pos m) + e) - e) with 0
        by (unfold fexp, SpecFloat.emin; lia).
      simpl. apply Z.leb_le in He. unfold emax, prec in He.
      by rewrite He.
Qed.

Lemma add_negative_zero (x : float) :
  isfinite x = true -> add (neg zero) x = x.
Proof. destruct x as [s|s| |s m e]; try done. by destruct s. Qed.

Lemma mul_zero_hundred (s : bool) : mul (S754_zero s) hundred = S754_zero s.
Proof. by destruct s. Qed.

(** The percentage of a change of zero: a zero with the sign of the base,
    and NaN when the base is zero. *)
Lemma pct_of_zero (x : float) :
  isfinite x = true ->
  mul (div zero x) hundred
  = if iszero x then nan else S754_zero (signbit x).
Proof.
  destruct x as [s|s| |s m e]; try done; intros _.
  unfold div, zero. simpl. by destruct s.
Qed.

End Representable.

(** ** Key metrics *)

Section KeyMetrics.
Import Float Pandas.

Lemma iloc_last_fmap {A B} (f : A -> B) (l : list A) (x : A) :
  last l = Some x -> iloc_last (f <$> l) = Ok (f x).
Proof. intros Hl. unfold iloc_last. by rewrite fmap_last, Hl. Qed.

(** The metrics of a frame that is not empty. *)
Lemma key_metrics_ok (first final : AnnotatedRecord)
    (rest : list AnnotatedRecord) :
  last (first :: rest) = Some final ->
  let avg_volume :=
    mean ((fun r : AnnotatedRecord => volume r) <$> first :: rest) in
  key_metrics (first :: rest)
  = Ok (mkMetrics
          (price final)
          (sub (price final) (price first))
          (mul (div (sub (price final) (price first)) (price first)) hundred)
          (volume final)
          (mul (div (sub (volume final) avg_volume) avg_volume) hundred)
          (Behavior final)
          (Combination final)
          (Factor_Ratio final)
          (mul (sub (Factor_Ratio final) one) hundred)).
Proof.
  intros Hlast. unfold key_metrics. cbv zeta.
  rewrite (iloc_last_fmap (fun r : AnnotatedRecord => price r) _ final Hlast).
  rewrite (iloc_last_fmap (fun r : AnnotatedRecord => volume r) _ final Hlast).
  rewrite (iloc_last_fmap (fun r : AnnotatedRecord => Behavior r) _ final Hlast).
  rewrite (iloc_last_fmap (fun r : AnnotatedRecord => Combination r) _ final
             Hlast).
  rewrite (iloc_last_fmap Factor_Ratio _ final Hlast).
  done.
Qed.

(** The mean of one value is the value. *)
Lemma mean_single (x : float) :
  isfinite x = true -> valid x = true -> mean [x] = x.
Proof.
  intros Hf Hv. unfold mean, fillna.
  rewrite filter_cons_True by (by apply isfinite_not_nan).
  rewrite filter_nil. simpl.
  rewrite (isfinite_not_nan x Hf).
  unfold Numpy.sum. simpl.
  rewrite add_negative_zero by done.
  change (of_Z 1) with one. by apply div_one.
Qed.

End KeyMetrics.

(** X20: on a frame of one sample the metrics show no change: the price
    change is 0, the factor ratio is 1, its change is 0 and the behavior
    is "Stable Market"; each of the two percentages is a zero with the sign
    of the price, respectively of the volume, and NaN when that is zero. *)
Theorem key_metrics_single_sample (s : Sample) (w : Z) :
  1 <= w ->
  exists (r : AnnotatedRecord) (m : Metrics),
    analyze [s] w = Ok [r]
    /\ key_metrics [r] = Ok m
    /\ current_price m = price s
    /\ current_volume m = volume s
    /\ price_change m = Float.zero
    /\ factor_ratio m = Float.one
    /\ factor_change m = Float.zero
    /\ latest_behavior m = "Stable Market"
    /\ price_change_pct m
       = (if Float.iszero (price s) then Float.nan
          else S754_zero (Float.signbit (price s)))
    /\ volume_vs_avg m
       = (if Float.iszero (volume s) then Float.nan
          else S754_zero (Float.signbit (volume s))).
Proof.
  intros Hw.
  destruct (analyze_lookup [s] w Hw) as (recs & Hrecs & Hlen & Hfields).
  destruct recs as [|r [|r' recs]]; try done.
  destruct (Hfields 0%nat r eq_refl) as (Hs & Hp & Hv & Ht & _ & Hq).
  injection Hs as Hs.
  rewrite (roll_mean_first _ _ (price s)) in Hp by (lia || done).
  rewrite (roll_mean_first _ _ (volume s)) in Hv by (lia || done).
  injection Hp as Hp. injection Hv as Hv.
  exists r. eexists. split; [done|].
  split; [by apply key_metrics_ok|].
  cbn [current_price current_volume price_change factor_ratio factor_change
       latest_behavior price_change_pct volume_vs_avg fmap list_fmap].
  rewrite <- Hs.
  assert (Hpf : Float.isfinite (price s) = true) by apply double_finite.
  assert (Hvf : Float.isfinite (volume s) = true) by apply double_finite.
  rewrite mean_single by (done || apply double_valid).
  rewrite !float_sub_diag, !pct_of_zero, Hq by done.
  split_and!; try done.
  rewrite Ht, (trends_of_same r); [done | by rewrite <- Hp, Hs
                                  | by rewrite <- Hv, Hs].
Qed.

Lemma key_metrics_single_sample_witness :
  exists (r : AnnotatedRecord) (m : Metrics),
    analyze [mkSample 0 (whole 100 I) (whole 0 I)] 2 = Ok [r]
    /\ key_metrics [r] = Ok m
    /\ price_change_pct m = Float.zero
    /\ volume_vs_avg m = Float.nan.
Proof.
  destruct (key_metrics_single_sample
              (mkSample 0 (whole 100 I) (whole 0 I)) 2)
    as (r & m & Hr & Hm & _ & _ & _ & _ & _ & _ & Hprice & Hvol); [lia|].
  by exists r, m.
Defined.

(** ** An upper bound that rounding keeps *)

Section Rounding.
Import Float.

(** The number of binary digits of a mantissa. *)
Lemma digits2_pos_bounds (p : positive) :
  2 ^ (Zpos (digits2_pos p) - 1) <= Zpos p < 2 ^ Zpos (digits2_pos p).
Proof.
  induction p as [p IH|p IH|]; simpl digits2_pos; [| |done].
  - rewrite Pos2Z.inj_succ, (Pos2Z.inj_xI p).
    replace (Z.succ (Zpos (digits2_pos p)) - 1)
      with (Z.succ (Zpos (digits2_pos p) - 1)) by lia.
    rewrite !Z.pow_succ_r by lia. lia.
  - rewrite Pos2Z.inj_succ, (Pos2Z.inj_xO p).
    replace (Z.succ (Zpos (digits2_pos p)) - 1)
      with (Z.succ (Zpos (digits2_pos p) - 1)) by lia.
    rewrite !Z.pow_succ_r by lia. lia.
Qed.

Lemma Zdigits2_bounds (m : Z) :
  0 <= m ->
  0 <= Zdigits2 m /\ m < 2 ^ Zdigits2 m
  /\ (0 < m -> 2 ^ (Zdigits2 m - 1) <= m).
Proof.
  intros Hm. destruct m as [|p|p]; [done| |lia]. simpl.
  pose proof (digits2_pos_bounds p). lia.
Qed.

(** A mantissa below [2^k] has at most [k] digits. *)
Lemma Zdigits2_le (m k : Z) : 0 <= m -> 0 <= k -> m < 2 ^ k -> Zdigits2 m <= k.
Proof.
  intros Hm Hk Hlt. destruct (Zdigits2_bounds m Hm) as (Hd & _ & Hlow).
  destruct (decide (m = 0)) as [->|Hne]; [done|].
  assert (H : 2 ^ (Zdigits2 m - 1) < 2 ^ k) by lia.
  apply Z.pow_lt_mono_r_iff in H; lia.
Qed.

(** Shifting a mantissa to the right divides it. *)
Lemma shr_1_div2 (mrs : shr_record) :
  0 <= shr_m mrs -> shr_m (shr_1 mrs) = shr_m mrs / 2.
Proof.
  destruct mrs as [m r s]. simpl. intros Hm.
  destruct m as [|p|p]; [done| |lia].
  destruct p as [p|p|]; simpl.
  - apply (Z.div_unique (Zpos p~1) 2 (Zpos p) 1); lia.
  - apply (Z.div_unique (Zpos p~0) 2 (Zpos p) 0); lia.
  - done.
Qed.

Lemma iter_shr_1_div (p : positive) (mrs : shr_record) :
  0 <= shr_m mrs ->
  shr_m (SpecFloat.iter_pos shr_1 p mrs) = shr_m mrs / 2 ^ Zpos p.
Proof.
  revert mrs. induction p as [p IH|p IH|]; simpl SpecFloat.iter_pos;
    intros mrs Hm.
  - rewrite IH by (by apply iter_shr_1_nonneg, shr_1_nonneg).
    rewrite IH by (by apply shr_1_nonneg).
    rewrite shr_1_div2 by done.
    assert (Hp : 0 < 2 ^ Zpos p) by (by apply Z.pow_pos_nonneg).
    rewrite !Z.div_div by lia. f_equal.
    rewrite (Pos2Z.inj_xI p).
    replace (2 * Zpos p + 1) with (1 + Zpos p + Zpos p) by lia.
    rewrite !Z.pow_add_r by lia. change (2 ^ 1) with 2. ring.
  - rewrite IH by (by apply iter_shr_1_nonneg).
    rewrite IH by done.
    assert (Hp : 0 < 2 ^ Zpos p) by (by apply Z.pow_pos_nonneg).
    rewrite !Z.div_div by lia. f_equal.
    rewrite (Pos2Z.inj_xO p).
    replace (2 * Zpos p) with (Zpos p + Zpos p) by lia.
    rewrite !Z.pow_add_r by lia. ring.
  - by rewrite shr_1_div2.
Qed.

Lemma shr_div (mrs : shr_record) (e n : Z) :
  0 <= shr_m mrs ->
  shr_m (shr mrs e n).1 = shr_m mrs / 2 ^ Z.max 0 n
  /\ (shr mrs e n).2 = e + Z.max 0 n.
Proof.
  intros Hm. unfold shr. destruct n as [|p|p]; simpl.
  - rewrite Z.div_1_r. lia.
  - rewrite iter_shr_1_div by done. done.
  - rewrite Z.div_1_r. lia.
Qed.

Lemma shr_record_of_loc_m (m : Z) (l : location) :
  shr_m (shr_record_of_loc m l) = m.
Proof. by destruct l as [|[]]. Qed.

Lemma shr_fexp_div (m e : Z) (l : location) :
  0 <= m ->
  let k := Z.max 0 (fexp prec emax (Zdigits2 m + e) - e) in
  shr_m (shr_fexp prec emax m e l).1 = m / 2 ^ k
  /\ (shr_fexp prec emax m e l).2 = e + k.
Proof.
  intros Hm k. unfold shr_fexp.
  pose proof (shr_div (shr_record_of_loc m l) e
                (fexp prec emax (Zdigits2 m + e) - e)) as H.
  rewrite shr_record_of_loc_m in H. by apply H.
Qed.

Lemma round_nearest_even_bounds (m : Z) (l : location) :
  m <= round_nearest_even m l <= m + 1.
Proof.
  unfold round_nearest_even.
  destruct l as [|[]]; try lia. destruct (Z.even m); lia.
Qed.

(** Rounding a mantissa that lies below a value binary64 can hold does not
    go above that value. *)
Lemma binary_round_aux_below (mx ex : Z) (lx : location) (mb : positive)
    (eb : Z) :
  bounded prec emax mb eb = true ->
  0 <= mx -> ex <= eb ->
  mx < Zpos mb * 2 ^ (eb - ex) ->
  binary_round_aux prec emax false mx ex lx = S754_zero false
  \/ exists (m : positive) (e : Z),
       binary_round_aux prec emax false mx ex lx = S754_finite false m e
       /\ Zpos m < 2 ^ 53
       /\ (e < eb \/ (e = eb /\ Zpos m <= Zpos mb)).
Proof.
  intros Hb Hmx Hex Hlt.
  unfold bounded, canonical_mantissa in Hb.
  apply andb_prop in Hb as [Hc He].
  apply Z.eqb_eq in Hc. apply Z.leb_le in He.
  pose proof (digits2_pos_bounds mb) as [_ Hb2].
  set (db := Zpos (digits2_pos mb)) in *.
  assert (Hdb : db <= 53 /\ -1074 <= eb /\ eb <= 971).
  { unfold fexp, SpecFloat.emin, prec, emax in Hc, He. lia. }
  assert (Hmb : Zpos mb < 2 ^ 53).
  { pose proof (Z.pow_le_mono_r 2 db 53). lia. }
  unfold binary_round_aux.
  pose proof (shr_fexp_div mx ex lx Hmx) as [H1m H1e]. cbv zeta in H1m, H1e.
  destruct (shr_fexp prec emax mx ex lx) as [mrs1 e1].
  cbn [fst snd] in H1m, H1e.
  destruct (Zdigits2_bounds mx Hmx) as (Hd0 & Hdu & Hdl).
  set (d := Zdigits2 mx) in *.
  set (k := Z.max 0 (fexp prec emax (d + ex) - ex)) in *.
  assert (Hk : 0 <= k /\ d - 53 <= k /\ -1074 - ex <= k
               /\ (k = 0 \/ k = d - 53 \/ k = -1074 - ex)).
  { unfold k, fexp, SpecFloat.emin, prec, emax. lia. }
  clearbody k.
  assert (Hde : d + ex - 53 <= eb).
  { destruct (decide (mx = 0)) as [E|Hne].
    - subst mx. unfold d. simpl. lia.
    - assert (Hpow : 2 ^ (d - 1) < 2 ^ (db + (eb - ex))).
      { rewrite (Z.pow_add_r 2 db (eb - ex)) by lia.
        assert (0 < 2 ^ (eb - ex)) by (apply Z.pow_pos_nonneg; lia).
        nia. }
      apply Z.pow_lt_mono_r_iff in Hpow; lia. }
  assert (He1 : e1 <= eb /\ -1074 <= e1) by lia.
  assert (Hk2 : 0 < 2 ^ k) by (apply Z.pow_pos_nonneg; lia).
  assert (Hm1b : shr_m mrs1 < Zpos mb * 2 ^ (eb - e1)).
  { rewrite H1m. apply Z.div_lt_upper_bound; [done|].
    replace (eb - ex) with (k + (eb - e1)) in Hlt by lia.
    rewrite Z.pow_add_r in Hlt by lia. lia. }
  assert (Hm1c : shr_m mrs1 < 2 ^ 53).
  { rewrite H1m. apply Z.div_lt_upper_bound; [done|].
    rewrite <- Z.pow_add_r by lia.
    pose proof (Z.pow_le_mono_r 2 d (k + 53)). lia. }
  assert (Hm1p : 0 <= shr_m mrs1).
  { rewrite H1m. apply Z.div_pos; lia. }
  pose proof (round_nearest_even_bounds (shr_m mrs1) (loc_of_shr_record mrs1))
    as Hr.
  set (m2 := round_nearest_even _ _) in *. clearbody m2.
  assert (Hm2 : 0 <= m2) by lia.
  pose proof (shr_fexp_div m2 e1 loc_Exact Hm2) as [H3m H3e].
  cbv zeta in H3m, H3e.
  destruct (shr_fexp prec emax m2 e1 loc_Exact) as [mrs3 e3].
  cbn [fst snd] in H3m, H3e.
  assert (H3 : (shr_m mrs3 = m2 /\ e3 = e1 /\ m2 < 2 ^ 53)
               \/ (shr_m mrs3 = 2 ^ 52 /\ e3 = e1 + 1 /\ m2 = 2 ^ 53)).
  { destruct (decide (m2 < 2 ^ 53)) as [Hlt2|Hge2].
    - left. pose proof (Zdigits2_le m2 53 Hm2 ltac:(lia) Hlt2) as Hd2.
      replace (Z.max 0 (fexp prec emax (Zdigits2 m2 + e1) - e1)) with 0
        in H3m, H3e
        by (unfold fexp, SpecFloat.emin, prec, emax; lia).
      rewrite Z.div_1_r in H3m. lia.
    - right. assert (E : m2 = 2 ^ 53) by lia. subst m2.
      change (Zdigits2 (2 ^ 53)) with 54 in H3m, H3e.
      replace (Z.max 0 (fexp prec emax (54 + e1) - e1)) with 1 in H3m, H3e
        by (unfold fexp, SpecFloat.emin, prec, emax; lia).
      change (2 ^ 53 / 2 ^ 1) with (2 ^ 52) in H3m. lia. }
  assert (Hpow1 : e1 < eb -> 2 * Zpos mb <= Zpos mb * 2 ^ (eb - e1)).
  { intros Hlt1.
    pose proof (Z.pow_le_mono_r 2 1 (eb - e1) ltac:(lia) ltac:(lia)) as Hp.
    change (2 ^ 1) with 2 in Hp. nia. }
  assert (Hpow0 : e1 = eb -> Zpos mb * 2 ^ (eb - e1) = Zpos mb).
  { intros ->. rewrite Z.sub_diag. simpl. lia. }
  assert (Hpow2 : e1 + 1 = eb -> Zpos mb * 2 ^ (eb - e1) = 2 * Zpos mb).
  { intros <-. replace (e1 + 1 - e1) with 1 by lia. simpl. lia. }
  change (2 ^ 53) with 9007199254740992 in *.
  change (2 ^ 52) with 4503599627370496 in *.
  destruct (shr_m mrs3) as [|m|m] eqn:Hm3.
  - by left.
  - right. exists m, e3.
    assert (He3 : e3 <= eb).
    { destruct H3 as [(_ & -> & _)|(_ & -> & E)]; [lia|].
      destruct (decide (e1 = eb)) as [E1|N1]; [|lia].
      specialize (Hpow0 E1). lia. }
    assert (Hle : (e3 <=? emax - prec)%Z = true).
    { apply Z.leb_le. unfold emax, prec. lia. }
    rewrite Hle. split; [done|]. split; [lia|].
    destruct (decide (e3 < eb)) as [Hlt3|Hge3]; [by left|right].
    split; [lia|].
    destruct H3 as [(E & -> & _)|(E & -> & E2)].
    + assert (E1 : e1 = eb) by lia. specialize (Hpow0 E1). lia.
    + assert (E1 : e1 + 1 = eb) by lia. specialize (Hpow2 E1). lia.
  - destruct H3 as [(E & _)|(E & _)]; lia.
Qed.

End Rounding.

(** ** Shares of a frame *)

Section Shares.
Import Float Pandas.

Lemma digits2_pos_unique (m : positive) (a : Z) :
  2 ^ (a - 1) <= Zpos m < 2 ^ a -> Zpos (digits2_pos m) = a.
Proof.
  intros [Hlo Hhi].
  pose proof (digits2_pos_bounds m) as [Hlo' Hhi'].
  set (d := Zpos (digits2_pos m)) in *.
  assert (Hd : 1 <= d) by (unfold d; lia).
  assert (Ha : 1 <= a).
  { destruct (decide (1 <= a)) as [|Hn]; [done|].
    assert (E : 2 ^ a <= 1).
    { destruct (decide (a = 0)) as [->|]; [done|].
      rewrite Z.pow_neg_r by lia. lia. }
    lia. }
  assert (H1 : 2 ^ (a - 1) < 2 ^ d) by lia.
  assert (H2 : 2 ^ (d - 1) < 2 ^ a) by lia.
  apply Z.pow_lt_mono_r_iff in H1; [|lia..].
  apply Z.pow_lt_mono_r_iff in H2; lia.
Qed.

(** A count below [2^53] is converted as it is: the mantissa has 53
    digits and stands for the count. *)
Lemma of_Z_positive (c : Z) :
  0 < c < 2 ^ 53 ->
  exists (m : positive) (e : Z),
    of_Z c = S754_finite false m e
    /\ bounded prec emax m e = true
    /\ Zpos (digits2_pos m) = 53
    /\ -52 <= e <= 0
    /\ Zpos m = c * 2 ^ (- e).
Proof.
  intros [Hc0 Hc1]. destruct c as [|p|p]; try lia.
  unfold of_Z, binary_normalize, binary_round.
  pose proof (digits2_pos_bounds p) as [Hp1 Hp2].
  set (dp := Zpos (digits2_pos p)) in *.
  assert (Hdp : 1 <= dp <= 53).
  { split; [unfold dp; lia|].
    assert (H : 2 ^ (dp - 1) < 2 ^ 53) by lia.
    apply Z.pow_lt_mono_r_iff in H; lia. }
  replace (fexp prec emax (dp + 0)) with (dp - 53)
    by (unfold fexp, SpecFloat.emin, prec, emax; lia).
  unfold shl_align. replace (dp - 53 - 0) with (dp - 53) by lia.
  destruct (dp - 53) as [|q|q] eqn:Hq; [|lia|].
  - assert (Hb : bounded prec emax p 0 = true).
    { unfold bounded, canonical_mantissa. fold dp.
      replace dp with 53 by lia. done. }
    exists p, 0. rewrite binary_round_aux_canonical by done.
    split_and!; [done | done | unfold dp in *; lia | lia | lia | ].
    simpl. lia.
  - pose proof (Zpower.shift_pos_correct q p) as Hm.
    unfold shift_pos in Hm.
    change (Z.pow_pos 2 q) with (2 ^ Zpos q) in Hm.
    set (m := Pos.iter xO p q) in *.
    assert (Hpq : Zpos q = 53 - dp) by lia.
    assert (Hd : Zpos (digits2_pos m) = 53).
    { apply digits2_pos_unique. rewrite Hm.
      assert (E1 : 2 ^ (53 - 1) = 2 ^ Zpos q * 2 ^ (dp - 1)).
      { rewrite <- Z.pow_add_r by lia. f_equal. lia. }
      assert (E2 : 2 ^ 53 = 2 ^ Zpos q * 2 ^ dp).
      { rewrite <- Z.pow_add_r by lia. f_equal. lia. }
      rewrite E1, E2.
      assert (0 < 2 ^ Zpos q) by (by apply Z.pow_pos_nonneg).
      nia. }
    assert (Hb : bounded prec emax m (Zneg q) = true).
    { unfold bounded, canonical_mantissa. rewrite Hd.
      apply andb_true_intro. split.
      - apply Z.eqb_eq. unfold fexp, SpecFloat.emin, prec, emax. lia.
      - apply Z.leb_le. unfold prec, emax. lia. }
    exists m, (Zneg q). rewrite binary_round_aux_canonical by done.
    split_and!; [done | done | done | lia | lia | ].
    rewrite Hm. change (- Zneg q) with (Zpos q). lia.
Qed.

Lemma of_Z_0 : of_Z 0 = zero.
Proof. done. Qed.

(** The quotient of two counts, the smaller by the larger, is at most 1. *)
Lemma div_of_Z_below_one (c n : Z) :
  0 < c < n -> n < 2 ^ 53 ->
  div (of_Z c) (of_Z n) = S754_zero false
  \/ exists (m : positive) (e : Z),
       div (of_Z c) (of_Z n) = S754_finite false m e
       /\ Zpos m < 2 ^ 53
       /\ (e < -52 \/ (e = -52 /\ Zpos m <= 2 ^ 52)).
Proof.
  intros Hc Hn.
  destruct (of_Z_positive c) as (m1 & e1 & -> & Hb1 & Hd1 & He1 & Hm1);
    [lia|].
  destruct (of_Z_positive n) as (m2 & e2 & -> & Hb2 & Hd2 & He2 & Hm2);
    [lia|].
  pose proof (digits2_pos_bounds m1) as [Hlo1 Hhi1].
  pose proof (digits2_pos_bounds m2) as [Hlo2 Hhi2].
  rewrite Hd1 in Hlo1, Hhi1. rewrite Hd2 in Hlo2, Hhi2.
  change (2 ^ (53 - 1)) with 4503599627370496 in *.
  change (2 ^ 53) with 9007199254740992 in *.
  assert (He : e1 <= e2).
  { destruct (decide (e1 <= e2)) as [|Hgt]; [done|].
    assert (E : 2 ^ (- e2) = 2 ^ (- e1) * 2 ^ (e1 - e2)).
    { rewrite <- Z.pow_add_r by lia. f_equal. lia. }
    pose proof (Z.pow_le_mono_r 2 1 (e1 - e2) ltac:(lia) ltac:(lia)) as Hp.
    change (2 ^ 1) with 2 in Hp.
    assert (0 < 2 ^ (- e1)) by (apply Z.pow_pos_nonneg; lia).
    rewrite E in Hm2. nia. }
  assert (Hlt : Zpos m1 < 2 ^ (e2 - e1) * Zpos m2).
  { assert (E : 2 ^ (- e1) = 2 ^ (- e2) * 2 ^ (e2 - e1)).
    { rewrite <- Z.pow_add_r by lia. f_equal. lia. }
    assert (0 < 2 ^ (- e2)) by (apply Z.pow_pos_nonneg; lia).
    assert (0 < 2 ^ (e2 - e1)) by (apply Z.pow_pos_nonneg; lia).
    rewrite Hm1, Hm2, E. nia. }
  unfold div, SFdiv, SFdiv_core_binary. simpl Zdigits2. rewrite Hd1, Hd2.
  replace (Z.min (fexp prec emax (53 + e1 - (53 + e2))) (e1 - e2))
    with (e1 - e2 - 53)
    by (unfold fexp, SpecFloat.emin, prec, emax; lia).
  replace (e1 - e2 - (e1 - e2 - 53)) with 53 by lia.
  cbv iota beta zeta.
  rewrite Z.shiftl_mul_pow2 by done.
  change (2 ^ 53) with 9007199254740992.
  pose proof (Z_div_mod (Zpos m1 * 9007199254740992) (Zpos m2) eq_refl) as H.
  destruct (Z.div_eucl (Zpos m1 * 9007199254740992) (Zpos m2)) as [q r].
  destruct H as [Hq Hr].
  assert (Hq0 : 0 <= q) by nia.
  apply (binary_round_aux_below q (e1 - e2 - 53) _ 4503599627370496 (-52));
    [done | done | lia |].
  replace (-52 - (e1 - e2 - 53)) with (1 + (e2 - e1)) by lia.
  rewrite Z.pow_add_r by lia. change (2 ^ 1) with 2.
  assert (0 < 2 ^ (e2 - e1)) by (apply Z.pow_pos_nonneg; lia).
  nia.
Qed.

(** A hundred times a value below 1 is at most 100. *)
Lemma mul_hundred_below (m : positive) (e : Z) :
  Zpos m < 2 ^ 53 -> e < -52 \/ (e = -52 /\ Zpos m < 2 ^ 52) ->
  mul (S754_finite false m e) hundred = S754_zero false
  \/ exists (m' : positive) (e' : Z),
       mul (S754_finite false m e) hundred = S754_finite false m' e'
       /\ (e' < -46 \/ (e' = -46 /\ Zpos m' <= 7036874417766400)).
Proof.
  intros Hm He. unfold mul, hundred, SFmul. simpl xorb.
  destruct (binary_round_aux_below (Zpos (m * 7036874417766400)) (e + -46)
              loc_Exact 7036874417766400 (-46))
    as [H|(m' & e' & H & _ & Hle)]; [done | lia | lia | | by left |].
  - replace (-46 - (e + -46)) with (- e) by lia.
    rewrite Pos2Z.inj_mul.
    assert (Hp : Zpos m < 2 ^ (- e)).
    { destruct He as [He|[-> He]]; [|done].
      pose proof (Z.pow_le_mono_r 2 53 (- e) ltac:(lia) ltac:(lia)). lia. }
    nia.
  - right. by exists m', e'.
Qed.

Lemma leb_finite_below (m mb : positive) (e eb : Z) :
  e < eb \/ (e = eb /\ Zpos m <= Zpos mb) ->
  leb (S754_finite false m e) (S754_finite false mb eb) = true.
Proof.
  intros H. unfold leb, SFleb. simpl.
  destruct (Z.compare_spec e eb) as [E|E|E]; [|done|lia].
  change (Pos.compare_cont Eq m mb) with (Pos.compare m mb).
  destruct (Pos.compare_spec m mb) as [E'|E'|E']; [done..|lia].
Qed.

Lemma filter_Is_true_none (xs : list bool) :
  Forall (fun b => b = false) xs -> filter Is_true xs = [].
Proof.
  induction 1 as [|b xs -> _ IH]; [done|].
  rewrite filter_cons_False; [done|]. by intros [].
Qed.

Lemma filter_Is_true_all (xs : list bool) :
  Forall (fun b => b = true) xs -> filter Is_true xs = xs.
Proof.
  induction 1 as [|b xs -> _ IH]; [done|].
  rewrite filter_cons_True; [by rewrite IH|done].
Qed.

Lemma mul_one_hundred : mul one hundred = hundred.
Proof. by vm_compute. Qed.

(** The share of the [True] of a column of booleans, as a percentage. *)
Lemma mean_bool_pct (xs : list bool) :
  xs <> [] -> Z.of_nat (length xs) < 2 ^ 53 ->
  let pct := mul (mean_bool xs) hundred in
  isfinite pct = true /\ leb zero pct = true /\ leb pct hundred = true
  /\ (Forall (fun b => b = false) xs -> pct = zero)
  /\ (Forall (fun b => b = true) xs -> pct = hundred).
Proof.
  intros Hne Hlen pct. subst pct. unfold mean_bool.
  assert (Hn : (0 < length xs)%nat) by (destruct xs; [done|simpl; lia]).
  apply Nat.ltb_lt in Hn as Hn'. rewrite Hn'. clear Hn'.
  pose proof (length_filter Is_true xs) as Hc.
  assert (Hnone : Forall (fun b => b = false) xs ->
                  length (filter Is_true xs) = 0%nat).
  { intros Hall. by rewrite filter_Is_true_none. }
  assert (Hevery : Forall (fun b => b = true) xs ->
                   length (filter Is_true xs) = length xs).
  { intros Hall. by rewrite filter_Is_true_all. }
  set (c := Z.of_nat (length (filter Is_true xs))).
  set (n := Z.of_nat (length xs)) in *.
  assert (Hcn : 0 <= c <= n /\ 0 < n) by (unfold c, n; clear -Hc Hn; lia).
  assert (Hc0 : Forall (fun b => b = false) xs -> c = 0).
  { intros Hall. specialize (Hnone Hall). unfold c. clear -Hnone. lia. }
  assert (Hc1 : Forall (fun b => b = true) xs -> c = n).
  { intros Hall. specialize (Hevery Hall). unfold c, n. clear -Hevery. lia. }
  clearbody c n. clear Hnone Hevery Hc Hn.
  destruct (of_Z_positive n) as (mn & en & En & _); [lia|].
  destruct (decide (c = 0)) as [->|Hpos].
  { change (of_Z 0) with zero. rewrite En.
    change (div zero (S754_finite false mn en)) with (S754_zero false).
    rewrite mul_zero_hundred. split_and!; try done.
    intros Hall. specialize (Hc1 Hall). lia. }
  destruct (decide (c = n)) as [->|Hlt].
  { rewrite En, float_div_self, mul_one_hundred. split_and!; try done.
    intros Hall. specialize (Hc0 Hall). lia. }
  assert (Hbelow : isfinite (mul (div (of_Z c) (of_Z n)) hundred) = true
                   /\ leb zero (mul (div (of_Z c) (of_Z n)) hundred) = true
                   /\ leb (mul (div (of_Z c) (of_Z n)) hundred) hundred
                      = true).
  { destruct (div_of_Z_below_one c n) as [->|(m & e & -> & Hm & He)];
      [lia | lia | by rewrite mul_zero_hundred |].
    destruct (decide (e = -52 /\ Zpos m = 2 ^ 52)) as [[-> E]|Hne1].
    { change (2 ^ 52) with (Zpos 4503599627370496) in E.
      injection E as ->. fold one. by rewrite mul_one_hundred. }
    destruct (mul_hundred_below m e) as [->|(m' & e' & -> & Hle)];
      [done | lia | done |].
    split_and!; [done | done |].
    by apply leb_finite_below. }
  destruct Hbelow as (H1 & H2 & H3). split_and!; try done.
  - intros Hall. specialize (Hc0 Hall). lia.
  - intros Hall. specialize (Hc1 Hall). lia.
Qed.

End Shares.

(** X21: an insight percentage of a frame that is not empty is a number
    between 0 and 100: 0 when no record has the behavior, 100 when every
    record has it; on an empty frame it is NaN.  (For a frame of fewer than
    [2^53] records: binary64 counts no further.) *)
Theorem behavior_pct_range (label : string) :
  behavior_pct label [] = Float.nan
  /\ forall (first : AnnotatedRecord) (rest : list AnnotatedRecord),
       Z.of_nat (length (first :: rest)) < 2 ^ 53 ->
       let pct := behavior_pct label (first :: rest) in
       Float.isfinite pct = true
       /\ Float.leb Float.zero pct = true
       /\ Float.leb pct Float.hundred = true
       /\ (Forall (fun r : AnnotatedRecord => Behavior r <> label)
             (first :: rest) -> pct = Float.zero)
       /\ (Forall (fun r : AnnotatedRecord => Behavior r = label)
             (first :: rest) -> pct = Float.hundred).
Proof.
  split; [done|]. intros first rest Hlen pct. subst pct.
  unfold behavior_pct.
  set (col := (fun r : AnnotatedRecord => String.eqb (Behavior r) label)
                <$> first :: rest).
  destruct (mean_bool_pct col) as (H1 & H2 & H3 & H4 & H5).
  - done.
  - unfold col. by rewrite length_fmap.
  - split_and!; try done.
    + intros Hall. apply H4. unfold col. apply Forall_fmap.
      eapply Forall_impl; [exact Hall|]. intros r Hr. simpl.
      by apply String.eqb_neq.
    + intros Hall. apply H5. unfold col. apply Forall_fmap.
      eapply Forall_impl; [exact Hall|]. intros r Hr. simpl.
      by apply String.eqb_eq.
Qed.

Lemma behavior_pct_range_witness :
  Float.leb (behavior_pct "Stable Market" scenario_records) Float.hundred
  = true.
Proof.
  destruct (behavior_pct_range "Stable Market") as [_ H].
  assert (E : exists first rest,
             scenario_records = first :: rest /\ length rest = 2%nat).
  { vm_compute. eexists _, _. split; reflexivity. }
  destruct E as (first & rest & -> & Hlen).
  destruct (H first rest) as (_ & _ & Hle & _); [|done].
  simpl length. rewrite Hlen. done.
Defined.
